(** * Weather monitor: observation store, daily aggregation, alert evaluation

    A shallow embedding of [src/app.py].  The Streamlit session state is an
    explicit record; a pandas DataFrame is the list of its rows, in row
    order; the HTTP provider and the clock are an explicit [world].

    Numbers that the program keeps as floats (temperature, humidity, wind
    speed, pressure) are exact rationals here: comparisons are exactly those
    of the program, sums and means are taken without binary rounding. *)

From Stdlib Require Import List String Ascii Bool ZArith QArith Qminmax Qabs Lia.
From Stdlib Require Import Permutation Sorted DecimalString.
Import ListNotations.

Local Open Scope Z_scope.
Local Open Scope string_scope.
Local Open Scope list_scope.

Set Implicit Arguments.

(* ===================================================================== *)
(** ** Data model *)
(* ===================================================================== *)

(** One row of [st.session_state.weather_data]: the dict built by
    [fetch_weather_data] (app.py 73-83).  [dt] is the naive local datetime
    produced by [datetime.fromtimestamp], in seconds. *)
Record observation := {
  city : string;
  main : string;
  description : string;
  temp : Q;
  feels_like : Q;
  humidity : Q;
  pressure : Q;
  wind_speed : Q;
  dt : Z
}.

(** One row of [st.session_state.daily_summaries] (app.py 112). *)
Record daily_summary := {
  date : Z;
  summary_city : string;
  avg_temp : Q;
  max_temp : Q;
  min_temp : Q;
  avg_humidity : Q;
  avg_wind_speed : Q;
  dominant_weather : string
}.

(** The [thresholds] dict assembled in [main] (app.py 175-180); the three
    numeric entries come from integer [number_input] widgets. *)
Record thresholds := {
  th_temp : Z;
  th_humidity : Z;
  th_wind_speed : Z;
  th_condition : string
}.

(** [st.session_state] (app.py 51-56). *)
Record session_state := {
  weather_data : list observation;
  daily_summaries : list daily_summary;
  alerts : list string
}.

(** [DataFrame.empty]. *)
Definition empty {A} (df : list A) : bool :=
  match df with [] => true | _ :: _ => false end.

(* ===================================================================== *)
(** ** First-occurrence de-duplication *)
(* ===================================================================== *)

Section Dedup.
Variables (A K : Type).
Variable keqb : K -> K -> bool.
Variable key : A -> K.

Definition mem (k : K) (seen : list K) : bool := existsb (keqb k) seen.

(** The scan behind [duplicated(keep='first')] and behind the hash table
    of [value_counts]/[groupby]: walk the rows in order, remember the keys
    met so far, keep a row only the first time its key shows up. *)
Fixpoint keep_first (seen : list K) (rows : list A) : list A :=
  match rows with
  | [] => []
  | r :: rest =>
      if mem (key r) seen then keep_first seen rest
      else r :: keep_first (key r :: seen) rest
  end.
End Dedup.

(** The subset [['city', 'dt']] of [drop_duplicates] (app.py 99). *)
Definition obs_key (o : observation) : string * Z := (city o, dt o).

Definition obs_key_eqb (a b : string * Z) : bool :=
  String.eqb (fst a) (fst b) && Z.eqb (snd a) (snd b).

(** [df.drop_duplicates(subset=['city', 'dt'])]: pandas keeps the first row
    of every key. *)
Definition drop_duplicates (df : list observation) : list observation :=
  keep_first obs_key_eqb obs_key [] df.

(** The merge step of [update_weather_data] (app.py 95-99): nothing happens
    for an empty batch, otherwise the batch is concatenated below the store
    and the duplicates are dropped. *)
Definition merge_new_data (store new_df : list observation) : list observation :=
  if empty new_df then store else drop_duplicates (store ++ new_df).

(** Stores that a run of the program can hold: the empty frame of app.py 52
    and whatever a merge makes of a reachable store. *)
Inductive reachable : list observation -> Prop :=
| reachable_init : reachable []
| reachable_merge : forall store new_df,
    reachable store -> reachable (merge_new_data store new_df).

(* ===================================================================== *)
(** ** Sorting and grouping *)
(* ===================================================================== *)

Section Sorting.
Variable A : Type.
Variable leb : A -> A -> bool.

(** Insertion from the front, into an already sorted tail: the new
    element stops in front of the first one it does not exceed, so equal
    elements keep the order they came in. *)
Fixpoint insert_sorted (x : A) (l : list A) : list A :=
  match l with
  | [] => [x]
  | y :: l' => if leb x y then x :: l else y :: insert_sorted x l'
  end.

Fixpoint sort (l : list A) : list A :=
  match l with
  | [] => []
  | x :: l' => insert_sorted x (sort l')
  end.
End Sorting.

(** The distinct values of a column, in order of first appearance. *)
Definition uniques {K} (keqb : K -> K -> bool) (col : list K) : list K :=
  keep_first keqb (fun k => k) [] col.

Section GroupBy.
Variable K : Type.
Variables keqb kleb : K -> K -> bool.
Variable by_key : observation -> K.

(** [df.groupby(by_key)] with the default [sort=True]: the group keys are the
    distinct key values in ascending order; every group holds its rows in
    the order of the frame. *)
Definition group_keys (df : list observation) : list K :=
  sort kleb (uniques keqb (map by_key df)).

Definition get_group (k : K) (df : list observation) : list observation :=
  filter (fun o => keqb (by_key o) k) df.

Definition groupby (df : list observation) : list (K * list observation) :=
  map (fun k => (k, get_group k df)) (group_keys df).
End GroupBy.

Definition opt_row {A} (r : option A) : list A :=
  match r with Some x => [x] | None => [] end.

(** The last row of a group. *)
Fixpoint last_row {A} (rows : list A) : option A :=
  match rows with
  | [] => None
  | r :: rest => match rest with [] => Some r | _ :: _ => last_row rest end
  end.

(** [df.groupby('city').last().reset_index()] (app.py 119 and 211): one row
    per city, cities ascending.  [last] takes, column by column, the last
    entry of the group that is not null; the rows of this model have no null
    entries, so it is the last row of the group. *)
Definition groupby_city_last (df : list observation) : list observation :=
  flat_map (fun g => opt_row (last_row (snd g)))
           (groupby String.eqb String.leb city df).

(* ===================================================================== *)
(** ** Daily aggregation *)
(* ===================================================================== *)

(** [daily_data.index.date]: the calendar day of a naive datetime. *)
Definition date_of (t : Z) : Z := t / 86400.

Definition day_city (o : observation) : Z * string := (date_of (dt o), city o).

Definition day_city_eqb (a b : Z * string) : bool :=
  Z.eqb (fst a) (fst b) && String.eqb (snd a) (snd b).

Definition day_city_leb (a b : Z * string) : bool :=
  Z.ltb (fst a) (fst b) || (Z.eqb (fst a) (fst b) && String.leb (snd a) (snd b)).

Definition Qsum (l : list Q) : Q := fold_left Qplus l 0%Q.

(** ['mean'] over a column. *)
Definition mean (l : list Q) : Q := (Qsum l / inject_Z (Z.of_nat (List.length l)))%Q.

(** ['max'] and ['min'] over a column whose first entry is [x]. *)
Definition col_max (x : Q) (l : list Q) : Q := fold_left Qmax l x.
Definition col_min (x : Q) (l : list Q) : Q := fold_left Qmin l x.

(** What [Series.sort_values(ascending=False)] promises on a table of
    counts: the same entries, largest count first.  The order of entries
    with equal counts is not promised: the default sort of pandas is a
    quicksort. *)
Definition descending_by_count (srt : list (string * nat) -> list (string * nat)) : Prop :=
  forall l, Permutation (srt l) l /\ Sorted (fun a b => (snd b <= snd a)%nat) (srt l).

(** Two sorts that keep that promise: one leaves entries of equal count in
    the order they came in, the other turns that order round. *)
Definition sort_values_stable (l : list (string * nat)) : list (string * nat) :=
  sort (fun a b => Nat.leb (snd b) (snd a)) l.

Definition sort_values_reversing (l : list (string * nat)) : list (string * nat) :=
  sort (fun a b => Nat.ltb (snd b) (snd a)) l.

Section Pandas.

(** The sort that the pandas at hand uses inside [value_counts]. *)
Variable sort_values : list (string * nat) -> list (string * nat).
Hypothesis sort_values_descending : descending_by_count sort_values.

(** [Series.value_counts()]: the hash table gives the distinct values with
    their counts in order of first appearance; the result is then put in
    descending order of count by [sort_values]. *)
Definition value_counts (x : list string) : list (string * nat) :=
  sort_values (map (fun v => (v, count_occ string_dec x v)) (uniques String.eqb x)).

(** The aggregation of one group (app.py 106-111); the lambda on ['main']
    is [x.value_counts().index[0]]. *)
Definition agg (k : Z * string) (g : list observation) : option daily_summary :=
  match g, value_counts (map main g) with
  | o :: rest, (top, _) :: _ =>
      Some {| date := fst k;
              summary_city := snd k;
              avg_temp := mean (map temp g);
              max_temp := col_max (temp o) (map temp rest);
              min_temp := col_min (temp o) (map temp rest);
              avg_humidity := mean (map humidity g);
              avg_wind_speed := mean (map wind_speed g);
              dominant_weather := top |}
  | _, _ => None
  end.

(** The frame assigned to [daily_summaries] (app.py 105-112). *)
Definition daily_summary_frame (df : list observation) : list daily_summary :=
  flat_map (fun g => opt_row (agg (fst g) (snd g)))
           (groupby day_city_eqb day_city_leb day_city df).

(** [calculate_daily_summary] (app.py 101-113) as a step on the session. *)
Definition calculate_daily_summary (st : session_state) : session_state :=
  if empty (weather_data st) then st
  else {| weather_data := weather_data st;
          daily_summaries := daily_summary_frame (weather_data st);
          alerts := alerts st |}.

(* ===================================================================== *)
(** ** Alert evaluation *)
(* ===================================================================== *)

(** Decimal digits of an integer, as [str] prints it. *)
Definition str_int (n : Z) : string := NilZero.string_of_int (Z.to_int n).

(** Nearest integer to a non-negative rational, halves to the even
    neighbour. *)
Definition round_half_even (x : Q) : Z :=
  let n := Qnum x in
  let d := Z.pos (Qden x) in
  let f := n / d in
  match 2 * (n mod d) ?= d with
  | Lt => f
  | Gt => f + 1
  | Eq => if Z.even f then f else f + 1
  end.

(** The format spec [:.1f]: sign, integer part, one decimal. *)
Definition format_1f (x : Q) : string :=
  let tenths := round_half_even (Z.abs (Qnum x) * 10 # Qden x) in
  ((if (Qnum x <? 0)%Z then "-" else EmptyString)
     ++ str_int (tenths / 10) ++ "." ++ str_int (tenths mod 10))%string.

(** [a > b] between a row value and an integer threshold. *)
Definition exceeds (a : Q) (b : Z) : bool := negb (Qle_bool a (inject_Z b)).

Section Alerts.
(** [str] of a number taken from a row (the plain [{row[...]}] fields of
    the humidity and wind messages): pandas hands back a numpy scalar,
    printed by numpy; the text is left to the caller of the model. *)
Variable str_number : Q -> string.

Definition temp_alert (th : thresholds) (row : observation) : string :=
  ("🌡️ Alert: Temperature in " ++ city row ++ " exceeded "
     ++ str_int (th_temp th) ++ "°C. Current temperature: "
     ++ format_1f (temp row) ++ "°C")%string.

Definition humidity_alert (th : thresholds) (row : observation) : string :=
  ("💧 Alert: Humidity in " ++ city row ++ " exceeded "
     ++ str_int (th_humidity th) ++ "%. Current humidity: "
     ++ str_number (humidity row) ++ "%")%string.

Definition wind_alert (th : thresholds) (row : observation) : string :=
  ("🌬️ Alert: Wind speed in " ++ city row ++ " exceeded "
     ++ str_int (th_wind_speed th) ++ " m/s. Current wind speed: "
     ++ str_number (wind_speed row) ++ " m/s")%string.

Definition condition_alert (th : thresholds) (row : observation) : string :=
  ("🌤️ Alert: " ++ th_condition th ++ " weather detected in "
     ++ city row ++ ".")%string.

(** The body of the loop of [check_alerts] (app.py 122-132): the alerts
    one row appends, in order. *)
Definition row_alerts (th : thresholds) (row : observation) : list string :=
  (if exceeds (temp row) (th_temp th) then [temp_alert th row] else [])
    ++ (if exceeds (humidity row) (th_humidity th)
        then [humidity_alert th row] else [])
    ++ (if exceeds (wind_speed row) (th_wind_speed th)
        then [wind_alert th row] else [])
    ++ (if String.eqb (main row) (th_condition th)
        then [condition_alert th row] else []).

(** [check_alerts] (app.py 115-132) as a step on the session: the loop
    appends to [st.session_state.alerts] row after row. *)
Definition check_alerts (th : thresholds) (st : session_state) : session_state :=
  if empty (weather_data st) then st
  else
    let latest_data := groupby_city_last (weather_data st) in
    {| weather_data := weather_data st;
       daily_summaries := daily_summaries st;
       alerts := fold_left (fun log row => log ++ row_alerts th row)
                           latest_data (alerts st) |}.
End Alerts.

(** The four kinds of alert, told apart by the symbol a message opens
    with. *)
Definition is_temp_alert (a : string) : bool := prefix "🌡️ Alert: Temperature in " a.
Definition is_humidity_alert (a : string) : bool := prefix "💧 Alert: Humidity in " a.
Definition is_wind_alert (a : string) : bool := prefix "🌬️ Alert: Wind speed in " a.
Definition is_condition_alert (a : string) : bool := prefix "🌤️ Alert: " a.

(* ===================================================================== *)
(** ** The provider boundary and the refresh cycle *)
(* ===================================================================== *)

(** The decoded JSON body of a provider answer, as far as
    [fetch_weather_data] looks into it.  [None] is an absent key. *)
Record weather_entry := {
  w_main : option string;
  w_description : option string
}.

Record main_block := {
  m_temp : option Q;
  m_feels_like : option Q;
  m_humidity : option Q;
  m_pressure : option Q
}.

Record wind_block := { w_speed : option Q }.

Record payload := {
  p_weather : option (list weather_entry);
  p_main : option main_block;
  p_wind : option wind_block;
  p_dt : option Z
}.

(** The empty dicts used as defaults, [{}]. *)
Definition no_entry : weather_entry := {| w_main := None; w_description := None |}.
Definition no_main : main_block :=
  {| m_temp := None; m_feels_like := None; m_humidity := None; m_pressure := None |}.
Definition no_wind : wind_block := {| w_speed := None |}.

(** Exceptions that the modelled code meets.  [TimestampError] stands for
    what [datetime.fromtimestamp] raises on a timestamp it cannot turn into
    a datetime: ValueError, OverflowError or OSError, by size and
    platform. *)
Inductive exn :=
| RequestException (msg : string)
| IndexError
| TimestampError.

(** The naive datetimes that exist, in seconds: from 0001-01-01 00:00:00
    to 9999-12-31 23:59:59. *)
Definition representable (local : Z) : bool :=
  (-62135596800 <=? local)%Z && (local <=? 253402300799)%Z.

(** What lies outside the program: the answer to the GET for a city
    ([requests.get], [raise_for_status] and [json] of app.py 66-68, either
    the text of a [RequestException] or a body), the reading of
    [int(datetime.now().timestamp())] taken while that answer is handled,
    the offset [datetime.fromtimestamp] adds for local time, and the
    timestamps that [datetime.fromtimestamp] turns into a datetime on the
    platform: never one whose local time is no datetime, always the clock
    reading, which was taken from a datetime. *)
Record world := {
  http_get : string -> string + payload;
  clock : string -> Z;
  utc_offset : Z;
  datetime_exists : Z -> bool;
  datetime_in_range :
    forall timestamp, datetime_exists timestamp = true ->
                      representable (timestamp + utc_offset) = true;
  clock_datetime_exists : forall c, datetime_exists (clock c) = true
}.

(** The session together with what a run leaves on the page and on the
    wire: the cities [fetch_weather_data] was called for, and the messages
    given to [st.error]. *)
Record runtime := {
  session : session_state;
  fetch_calls : list string;
  st_errors : list string
}.

(** Computations on the runtime that may raise. *)
Definition M (A : Type) : Type := runtime -> (exn + A) * runtime.

Definition ret {A} (x : A) : M A := fun rt => (inr x, rt).

Definition bind {A B} (c : M A) (k : A -> M B) : M B :=
  fun rt =>
    match c rt with
    | (inl e, rt') => (inl e, rt')
    | (inr x, rt') => k x rt'
    end.

Definition raise {A} (e : exn) : M A := fun rt => (inl e, rt).

(** [try: body except RequestException as e: handler]. *)
Definition try_except {A} (body : M A) (handler : string -> M A) : M A :=
  fun rt =>
    match body rt with
    | (inl (RequestException msg), rt') => handler msg rt'
    | other => other
    end.

Declare Scope cycle_scope.
Delimit Scope cycle_scope with cycle.
Notation "x <- c ;; k" := (bind c (fun x => k))
  (at level 61, c at next level, right associativity) : cycle_scope.
Notation "c ;; k" := (bind c (fun _ => k))
  (at level 61, right associativity) : cycle_scope.
Local Open Scope cycle_scope.

Definition log_call (c : string) : M unit :=
  fun rt => (inr tt, {| session := session rt;
                        fetch_calls := fetch_calls rt ++ [c];
                        st_errors := st_errors rt |}).

Definition st_error (msg : string) : M unit :=
  fun rt => (inr tt, {| session := session rt;
                        fetch_calls := fetch_calls rt;
                        st_errors := st_errors rt ++ [msg] |}).

Definition modify_session (f : session_state -> session_state) : M unit :=
  fun rt => (inr tt, {| session := f (session rt);
                        fetch_calls := fetch_calls rt;
                        st_errors := st_errors rt |}).

(** [d.get(key, default)]. *)
Definition dict_get {A} (field : option A) (default : A) : A :=
  match field with Some v => v | None => default end.

(** [l[0]]. *)
Definition index0 {A} (l : list A) : M A :=
  match l with
  | x :: _ => ret x
  | [] => raise IndexError
  end.

(** Lines 66-68: the request and the decoding of its body. *)
Definition response_json (w : world) (c : string) : M payload :=
  match http_get w c with
  | inl msg => raise (RequestException msg)
  | inr data => ret data
  end.

(** [datetime.fromtimestamp(timestamp)]: the local datetime, when there
    is one. *)
Definition fromtimestamp (w : world) (timestamp : Z) : M Z :=
  if datetime_exists w timestamp
  then ret (timestamp + utc_offset w)
  else raise TimestampError.

(** The dict of app.py 73-83, given the two entries that the [[0]]
    lookups found and the datetime that [fromtimestamp] returned. *)
Definition reading (c : string) (data : payload)
    (e_main e_desc : weather_entry) (observed_at : Z) : observation :=
  {| city := c;
     main := dict_get (w_main e_main) "Unknown";
     description := dict_get (w_description e_desc) "Unknown";
     temp := dict_get (m_temp (dict_get (p_main data) no_main)) 0%Q;
     feels_like := dict_get (m_feels_like (dict_get (p_main data) no_main)) 0%Q;
     humidity := dict_get (m_humidity (dict_get (p_main data) no_main)) 0%Q;
     pressure := dict_get (m_pressure (dict_get (p_main data) no_main)) 0%Q;
     wind_speed := dict_get (w_speed (dict_get (p_wind data) no_wind)) 0%Q;
     dt := observed_at |}.

(** The text given to [st.error] (app.py 85). *)
Definition error_message (c msg : string) : string :=
  ("Error fetching data for " ++ c ++ ": " ++ msg)%string.

(** [fetch_weather_data] (app.py 59-86).  The cache decorator stands
    between the caller and this body; what it replays within its time to
    live is one more answer of the world. *)
Definition fetch_weather_data (w : world) (c : string) : M (option observation) :=
  log_call c ;;
  try_except
    (data <- response_json w c ;;
     let timestamp := dict_get (p_dt data) (clock w c) in
     e_main <- index0 (dict_get (p_weather data) [no_entry]) ;;
     e_desc <- index0 (dict_get (p_weather data) [no_entry]) ;;
     observed_at <- fromtimestamp w timestamp ;;
     ret (Some (reading c data e_main e_desc observed_at)))
    (fun msg => st_error (error_message c msg) ;; ret None).

(** The loop of app.py 89-93. *)
Fixpoint fetch_all (w : world) (cities : list string) (new_data : list observation)
  : M (list observation) :=
  match cities with
  | [] => ret new_data
  | c :: rest =>
      data <- fetch_weather_data w c ;;
      fetch_all w rest (new_data ++ opt_row data)
  end.

(** What a Python call evaluates to. *)
#[warnings="-register-all"] Inductive pyvalue :=
| PyNone
| PyInt (n : Z)
| PyStr (s : string)
| PyList (items : list pyvalue)
| PyTuple (items : list pyvalue).

(** [update_weather_data] (app.py 88-99) over a given city table.  The
    function has no [return]: the call evaluates to [None]. *)
Definition update_weather_data_over (w : world) (cities : list string) : M pyvalue :=
  new_data <- fetch_all w cities [] ;;
  modify_session (fun st =>
    {| weather_data := merge_new_data (weather_data st) new_data;
       daily_summaries := daily_summaries st;
       alerts := alerts st |}) ;;
  ret PyNone.

(** The city table of app.py 41-48, with its coordinates. *)
Definition CITIES : list (string * (Q * Q)) :=
  [ ("Delhi", (286139 # 10000, 772090 # 10000)%Q);
    ("Mumbai", (190760 # 10000, 728777 # 10000)%Q);
    ("Chennai", (130827 # 10000, 802707 # 10000)%Q);
    ("Bangalore", (129716 # 10000, 775946 # 10000)%Q);
    ("Kolkata", (225726 # 10000, 883639 # 10000)%Q);
    ("Hyderabad", (173850 # 10000, 784867 # 10000)%Q) ].

Definition update_weather_data (w : world) : M pyvalue :=
  update_weather_data_over w (map fst CITIES).


Definition init_session : session_state :=
  {| weather_data := []; daily_summaries := []; alerts := [] |}.

Definition init_runtime : runtime :=
  {| session := init_session; fetch_calls := []; st_errors := [] |}.

(* ===================================================================== *)
(** ** What a cycle is expected to leave behind *)
(* ===================================================================== *)

(** The first weather entry of a body, [{}] when the key is absent. *)
Definition first_entry (data : payload) : weather_entry :=
  hd no_entry (dict_get (p_weather data) [no_entry]).

(** A body that [fetch_weather_data] can turn into a reading: its weather
    list, if there, is not empty, and its dt, if there, is the timestamp of
    a datetime. *)
Definition usable_body (w : world) (data : payload) : bool :=
  match p_weather data with Some [] => false | _ => true end
  && match p_dt data with
     | Some timestamp => datetime_exists w timestamp
     | None => true
     end.



(** The reading made of a usable body. *)
Definition reading_of (w : world) (c : string) (data : payload) : observation :=
  reading c data (first_entry data) (first_entry data)
          (dict_get (p_dt data) (clock w c) + utc_offset w).




(** The view the store is asked to give: for every city, the row of the
    latest-reading view carries the greatest observed_at of the city. *)
Definition latest_has_greatest_observed_at (store : list observation) : Prop :=
  forall o o', In o (groupby_city_last store) -> In o' store ->
               city o' = city o -> dt o' <= dt o.

(* ===================================================================== *)
(** ** The map and the views of [main] *)
(* ===================================================================== *)

(** What indexing raises: [KeyError] for a column that is not there,
    [IndexError] for a position that is not there ([iloc] on a frame, an
    index into a tuple). *)
Inductive frame_error :=
| FrameKeyError (column : string)
| FrameIndexError.

(** [data[data['city'] == city]].  The frame without rows is the frame of
    app.py 52, which has no columns either: rows are never removed from a
    frame that has some. *)
Definition select_city (c : string) (data : list observation)
  : frame_error + list observation :=
  if empty data then inl (FrameKeyError "city")
  else inr (filter (fun o => String.eqb (city o) c) data).

(** [frame.iloc[-1]]. *)
Definition iloc_last {A} (rows : list A) : frame_error + A :=
  match last_row rows with
  | Some r => inr r
  | None => inl FrameIndexError
  end.

(** One [go.Scattermapbox] trace of app.py 139-146. *)
Record trace := {
  trace_lat : list Q;
  trace_lon : list Q;
  trace_mode : string;
  marker_size : Z;
  trace_text : string;
  trace_hoverinfo : string
}.

(** The arguments of [fig.update_layout] (app.py 148-157). *)
Record layout := {
  mapbox_style : string;
  center_lat : Q;
  center_lon : Q;
  zoom : Z;
  showlegend : bool;
  height : Z;
  margin : Z * Z * Z * Z
}.

Record figure := {
  traces : list trace;
  fig_layout : layout
}.

(** The hover text of a marker (app.py 144). *)
Definition marker_text (c : string) (city_data : observation) : string :=
  (c ++ "<br>Temp: " ++ format_1f (temp city_data) ++ "°C<br>" ++ main city_data)%string.

Definition city_trace (c : string) (lat lon : Q) (city_data : observation) : trace :=
  {| trace_lat := [lat];
     trace_lon := [lon];
     trace_mode := "markers";
     marker_size := 14;
     trace_text := marker_text c city_data;
     trace_hoverinfo := "text" |}.

(** The loop of [create_map] (app.py 137-146) over a city table. *)
Fixpoint add_traces (table : list (string * (Q * Q))) (data : list observation)
    (fig : list trace) : frame_error + list trace :=
  match table with
  | [] => inr fig
  | (c, (lat, lon)) :: rest =>
      match select_city c data with
      | inl e => inl e
      | inr rows =>
          match iloc_last rows with
          | inl e => inl e
          | inr city_data => add_traces rest data (fig ++ [city_trace c lat lon city_data])
          end
      end
  end.

Definition map_layout : layout :=
  {| mapbox_style := "open-street-map";
     center_lat := (225726 # 10000)%Q;
     center_lon := (783639 # 10000)%Q;
     zoom := 4;
     showlegend := false;
     height := 400;
     margin := (0, 0, 0, 0) |}.

Definition create_map_over (table : list (string * (Q * Q))) (data : list observation)
  : frame_error + figure :=
  match add_traces table data [] with
  | inl e => inl e
  | inr ts => inr {| traces := ts; fig_layout := map_layout |}
  end.

(** [create_map] (app.py 134-159). *)
Definition create_map (data : list observation) : frame_error + figure :=
  create_map_over CITIES data.

(** The trace of a city together with the row of the latest-reading view
    it is drawn from. *)
Definition trace_of_latest_row (data : list observation)
    (entry : string * (Q * Q)) (tr : trace) : Prop :=
  exists row,
    filter (fun r => String.eqb (city r) (fst entry)) (groupby_city_last data) = [row] /\
    tr = city_trace (fst entry) (fst (snd entry)) (snd (snd entry)) row.


(** [alerts[-5:]] (app.py 200). *)
Definition last_five {A} (log : list A) : list A :=
  skipn (List.length log - 5) log.

(** The alert column of the page (app.py 198-203). *)
Inductive alerts_panel :=
| NoActiveAlerts
| Warnings (shown : list string).

Definition weather_alerts (st : session_state) : alerts_panel :=
  if empty (alerts st) then NoActiveAlerts else Warnings (last_five (alerts st)).

(** [pd.to_datetime] of a calendar day: its midnight. *)
Definition to_datetime (d : Z) : Z := d * 86400.

(** [date_range[i]] on the tuple that [st.date_input] hands back. *)
Definition tuple_get (date_range : list Z) (i : nat) : frame_error + Z :=
  match nth_error date_range i with
  | Some d => inr d
  | None => inl FrameIndexError
  end.

(** The three outcomes of the historical tab (app.py 236-250). *)
Inductive historical_view :=
| NoHistoricalData
| NoDataInRange
| HistoricalTable (rows : list observation).

(** The mask of app.py 237-240. *)
Definition in_date_range (d0 d1 : Z) (o : observation) : bool :=
  Z.leb (to_datetime d0) (dt o) && Z.leb (dt o) (to_datetime d1).

(** The historical tab (app.py 236-250) for a selected date range. *)
Definition historical_data (date_range : list Z) (store : list observation)
  : frame_error + historical_view :=
  if empty store then inr NoHistoricalData
  else
    match tuple_get date_range 0 with
    | inl e => inl e
    | inr d0 =>
        match tuple_get date_range 1 with
        | inl e => inl e
        | inr d1 =>
            let filtered_data := filter (in_date_range d0 d1) store in
            if empty filtered_data then inr NoDataInRange
            else inr (HistoricalTable filtered_data)
        end
    end.

(* ===================================================================== *)
(** ** Sample data *)
(* ===================================================================== *)

Definition sample_reading (c : string) (m : string) (t : Q) (at_time : Z) : observation :=
  {| city := c; main := m; description := "sample";
     temp := t; feels_like := t; humidity := 60%Q; pressure := 1010%Q;
     wind_speed := 3%Q; dt := at_time |}.

(** Two merges for Delhi, the second with the earlier timestamp. *)
Definition delhi_late : observation := sample_reading "Delhi" "Clear" 30%Q 1700000600.
Definition delhi_early : observation := sample_reading "Delhi" "Clouds" 28%Q 1700000000.
Definition store_out_of_order : list observation :=
  merge_new_data (merge_new_data [] [delhi_late]) [delhi_early].

(** One day of Delhi with temperatures 30, 35, 40 and one reading of
    Mumbai at 36. *)
Definition mumbai_reading : observation := sample_reading "Mumbai" "Clear" 36%Q 1700000000.
Definition store_one_day : list observation :=
  merge_new_data
    (merge_new_data
       (merge_new_data [] [sample_reading "Delhi" "Rain" 30%Q 1700000000;
                           mumbai_reading])
       [sample_reading "Delhi" "Clouds" 35%Q 1700000300])
    [sample_reading "Delhi" "Haze" 40%Q 1700000600].

Definition session_one_day : session_state :=
  {| weather_data := store_one_day; daily_summaries := []; alerts := [] |}.

(** An empty store next to a summary that an earlier run left. *)
Definition session_stale_summary : session_state :=
  {| weather_data := [];
     daily_summaries := [ {| date := 19675; summary_city := "Delhi";
                             avg_temp := 35%Q; max_temp := 40%Q; min_temp := 30%Q;
                             avg_humidity := 60%Q; avg_wind_speed := 3%Q;
                             dominant_weather := "Rain" |} ];
     alerts := [] |}.

Definition sample_thresholds : thresholds :=
  {| th_temp := 35; th_humidity := 60; th_wind_speed := 3; th_condition := "Rain" |}.

(** A stand-in for the printing of numpy scalars. *)
Definition sample_str_number (q : Q) : string :=
  (str_int (Qnum q) ++ "/" ++ str_int (Z.pos (Qden q)))%string.

Definition sample_payload : payload :=
  {| p_weather := Some [{| w_main := Some "Rain"; w_description := Some "light rain" |}];
     p_main := Some {| m_temp := Some (271 # 10)%Q; m_feels_like := Some (29 # 1)%Q;
                       m_humidity := Some 83%Q; m_pressure := Some 1008%Q |};
     p_wind := Some {| w_speed := Some (41 # 10)%Q |};
     p_dt := Some 1700000000 |}.

(** A body whose weather list is there and empty. *)
Definition payload_empty_weather : payload :=
  {| p_weather := Some [];
     p_main := p_main sample_payload;
     p_wind := p_wind sample_payload;
     p_dt := p_dt sample_payload |}.


(** Chennai answering with an empty weather list, every other city with
    the full body. *)
Definition world_empty_weather : world :=
  {| http_get := fun c => if String.eqb c "Chennai"
                          then inr payload_empty_weather
                          else inr sample_payload;
     clock := fun _ => 1700000042;
     utc_offset := 19800;
     datetime_exists := fun timestamp => representable (timestamp + 19800);
     datetime_in_range := fun _ H => H;
     clock_datetime_exists := fun _ => eq_refl |}.



(** One day of Delhi, Rain first and Clouds second, once each. *)
Definition session_rain_clouds : session_state :=
  {| weather_data :=
       merge_new_data
         (merge_new_data [] [sample_reading "Delhi" "Rain" 30%Q 1700000000])
         [sample_reading "Delhi" "Clouds" 31%Q 1700000300];
     daily_summaries := [];
     alerts := [] |}.

(** A body with none of the keys that [fetch_weather_data] reads. *)
Definition bare_payload : payload :=
  {| p_weather := None; p_main := None; p_wind := None; p_dt := None |}.

Definition world_bare_body : world :=
  {| http_get := fun _ => inr bare_payload;
     clock := fun _ => 1700000042;
     utc_offset := 19800;
     datetime_exists := fun timestamp => representable (timestamp + 19800);
     datetime_in_range := fun _ H => H;
     clock_datetime_exists := fun _ => eq_refl |}.

(** A second reading of Mumbai at the instant of [mumbai_reading], with
    other values. *)
Definition mumbai_refetched : observation := sample_reading "Mumbai" "Rain" 31%Q 1700000000.

(** One reading for every city of the table. *)
Definition store_all_cities : list observation :=
  merge_new_data [] (map (fun c => sample_reading c "Clear" 30%Q 1700000000)
                         (map fst CITIES)).

(** Seven alerts, oldest first. *)
Definition session_seven_alerts : session_state :=
  {| weather_data := store_one_day; daily_summaries := [];
     alerts := ["a1"; "a2"; "a3"; "a4"; "a5"; "a6"; "a7"] |}.

(* ===================================================================== *)
(** * Properties *)
(* ===================================================================== *)

(** ** De-duplication *)

Section DedupFacts.
Variables (A K : Type).
Variable keqb : K -> K -> bool.
Variable key : A -> K.
Hypothesis keqb_eq : forall a b, keqb a b = true <-> a = b.

Lemma mem_In k seen : mem keqb k seen = true <-> In k seen.
Proof.
  unfold mem. rewrite existsb_exists. split.
  - intros [x [Hx Hk]]. apply keqb_eq in Hk. now subst.
  - intros H. exists k. split; [assumption | now apply keqb_eq].
Qed.

Lemma mem_false k seen : mem keqb k seen = false <-> ~ In k seen.
Proof.
  rewrite <- mem_In. destruct (mem keqb k seen); split; congruence.
Qed.

Lemma keep_first_In seen l r :
  In r (keep_first keqb key seen l) -> In r l /\ ~ In (key r) seen.
Proof.
  revert seen. induction l as [|x l IH]; intros seen; simpl; [tauto|].
  destruct (mem keqb (key x) seen) eqn:E.
  - intros H. apply IH in H. tauto.
  - intros [<- | H].
    + split; [now left | now apply mem_false].
    + apply IH in H. simpl in H. tauto.
Qed.

Lemma keep_first_NoDup seen l :
  NoDup (map key (keep_first keqb key seen l)).
Proof.
  revert seen. induction l as [|x l IH]; intros seen; simpl; [constructor|].
  destruct (mem keqb (key x) seen); [apply IH|].
  simpl. constructor; [|apply IH].
  intros H. apply in_map_iff in H. destruct H as [y [Hy Hin]].
  apply keep_first_In in Hin. destruct Hin as [_ Hn].
  apply Hn. rewrite Hy. now left.
Qed.

Lemma keep_first_cover seen l r :
  In r l -> In (key r) seen \/ In (key r) (map key (keep_first keqb key seen l)).
Proof.
  revert seen. induction l as [|x l IH]; intros seen; simpl; [tauto|].
  intros [-> | H].
  - destruct (mem keqb (key r) seen) eqn:E.
    + left. now apply mem_In.
    + right. now left.
  - destruct (mem keqb (key x) seen) eqn:E.
    + now apply IH.
    + destruct (IH (key x :: seen) H) as [[Hk | Hk] | Hk].
      * right. left. exact Hk.
      * now left.
      * right. now right.
Qed.

Lemma keep_first_all_seen seen l :
  (forall r, In r l -> In (key r) seen) -> keep_first keqb key seen l = [].
Proof.
  induction l as [|x l IH]; intros H; simpl; [reflexivity|].
  assert (Hx : mem keqb (key x) seen = true) by (apply mem_In, H; now left).
  rewrite Hx. apply IH. intros r Hr. apply H. now right.
Qed.

Lemma keep_first_fixed seen l :
  NoDup (map key l) -> (forall r, In r l -> ~ In (key r) seen) ->
  keep_first keqb key seen l = l.
Proof.
  revert seen. induction l as [|x l IH]; intros seen Hnd Hs; simpl; [reflexivity|].
  inversion Hnd as [|? ? Hx Hl]; subst.
  assert (E : mem keqb (key x) seen = false) by (apply mem_false, Hs; now left).
  rewrite E. f_equal. apply IH; [assumption|].
  intros r Hr [Hk | Hk].
  - apply Hx. rewrite Hk. now apply in_map.
  - apply (Hs r); [now right | assumption].
Qed.

Lemma keep_first_app_covered seen l1 l2 :
  (forall r, In r l2 -> In (key r) seen \/ In (key r) (map key l1)) ->
  keep_first keqb key seen (l1 ++ l2) = keep_first keqb key seen l1.
Proof.
  revert seen. induction l1 as [|x l1 IH]; intros seen H; simpl.
  - apply keep_first_all_seen. intros r Hr.
    destruct (H r Hr) as [Hk | []]. exact Hk.
  - destruct (mem keqb (key x) seen) eqn:E.
    + apply IH. intros r Hr. destruct (H r Hr) as [Hk | [Hk | Hk]].
      * now left.
      * left. rewrite <- Hk. now apply mem_In.
      * now right.
    + f_equal. apply IH. intros r Hr.
      destruct (H r Hr) as [Hk | [Hk | Hk]].
      * left. now right.
      * left. now left.
      * now right.
Qed.

(** What is seen before the first row of a surviving key carries keys
    that were met already or that survive earlier. *)
Lemma keep_first_split seen l u1 m u2 :
  keep_first keqb key seen l = u1 ++ m :: u2 ->
  exists pre post,
    l = pre ++ m :: post /\
    forall r, In r pre -> In (key r) seen \/ In (key r) (map key u1).
Proof.
  revert seen u1. induction l as [|x l IH]; intros seen u1; simpl.
  - intros H. destruct u1; discriminate.
  - destruct (mem keqb (key x) seen) eqn:E.
    + intros H. destruct (IH _ _ H) as [pre [post [-> Hpre]]].
      exists (x :: pre), post. split; [reflexivity|].
      intros r [<- | Hr]; [left; now apply mem_In | now apply Hpre].
    + destruct u1 as [|y u1]; simpl; intros H; inversion H; subst.
      * exists [], l. split; [reflexivity | intros r []].
      * destruct (IH _ _ H2) as [pre [post [-> Hpre]]].
        exists (y :: pre), post. split; [reflexivity|].
        intros r [<- | Hr]; [right; now left|].
        destruct (Hpre r Hr) as [[Hk | Hk] | Hk].
        -- right. left. exact Hk.
        -- now left.
        -- right. now right.
Qed.
End DedupFacts.

Lemma obs_key_eqb_eq a b : obs_key_eqb a b = true <-> a = b.
Proof.
  destruct a as [c1 t1], b as [c2 t2]. unfold obs_key_eqb; simpl.
  rewrite andb_true_iff, String.eqb_eq, Z.eqb_eq.
  split; [intros [-> ->]; reflexivity | intros H; inversion H; auto].
Qed.

Lemma drop_duplicates_NoDup df : NoDup (map obs_key (drop_duplicates df)).
Proof. apply keep_first_NoDup, obs_key_eqb_eq. Qed.

Lemma drop_duplicates_fixed df :
  NoDup (map obs_key df) -> drop_duplicates df = df.
Proof.
  intros H. apply keep_first_fixed; [apply obs_key_eqb_eq | assumption | auto].
Qed.

Lemma reachable_NoDup store : reachable store -> NoDup (map obs_key store).
Proof.
  induction 1 as [|store new_df _ IH]; [constructor|].
  unfold merge_new_data. destruct (empty new_df); [assumption|].
  apply drop_duplicates_NoDup.
Qed.

(** C2: adding the same sequence of observations a second time leaves the
    size of the store as the first addition left it. *)
Theorem add_twice_same_size (store new_df : list observation) :
  List.length (merge_new_data (merge_new_data store new_df) new_df)
  = List.length (merge_new_data store new_df).
Proof.
  unfold merge_new_data. destruct new_df as [|o new_df]; [reflexivity|].
  cbn [empty]. f_equal.
  (* every key of the batch is already in the store after the first merge *)
  unfold drop_duplicates at 1. rewrite keep_first_app_covered.
  - apply drop_duplicates_fixed, drop_duplicates_NoDup.
  - apply obs_key_eqb_eq.
  - intros r Hr. unfold drop_duplicates.
    apply keep_first_cover; [apply obs_key_eqb_eq|].
    apply in_or_app. now right.
Qed.

(** C3: in every store reached by merges from the empty store, two entries
    with the same city and the same observed_at are one and the same
    entry. *)
Theorem reachable_key_unique (store : list observation) (i j : nat)
    (a b : observation) :
  reachable store ->
  nth_error store i = Some a -> nth_error store j = Some b ->
  city a = city b -> dt a = dt b ->
  i = j.
Proof.
  intros Hr Hi Hj Hc Ht.
  apply reachable_NoDup in Hr.
  rewrite NoDup_nth_error in Hr. apply Hr.
  - rewrite length_map. apply nth_error_Some. congruence.
  - rewrite !nth_error_map, Hi, Hj. simpl. unfold obs_key. congruence.
Qed.

(** ** Sorting *)

Section SortFacts.
Variable A : Type.
Variable leb : A -> A -> bool.

Lemma insert_sorted_perm x l : Permutation (insert_sorted leb x l) (x :: l).
Proof.
  induction l as [|y l IH]; simpl; [reflexivity|].
  destruct (leb x y); [reflexivity|].
  rewrite IH. apply perm_swap.
Qed.

Lemma sort_perm l : Permutation (sort leb l) l.
Proof.
  induction l as [|x l IH]; simpl; [reflexivity|].
  rewrite insert_sorted_perm. now apply perm_skip.
Qed.

Lemma sort_In x l : In x (sort leb l) <-> In x l.
Proof.
  split; apply Permutation_in; [apply sort_perm | symmetry; apply sort_perm].
Qed.

Lemma sort_NoDup l : NoDup l -> NoDup (sort leb l).
Proof.
  apply Permutation_NoDup. symmetry. apply sort_perm.
Qed.

End SortFacts.

Section SortByScore.
Variable A : Type.
Variable score : A -> nat.

(** The element that a descending sort puts in front: everything before
    it in the input scores strictly less, everything after it scores at
    most as much. *)
Lemma sort_desc_head h t l :
  sort (fun a b => Nat.leb (score b) (score a)) l = h :: t ->
  exists l1 l2,
    l = l1 ++ h :: l2 /\
    (forall e, In e l1 -> (score e < score h)%nat) /\
    (forall e, In e l2 -> (score e <= score h)%nat).
Proof.
  revert h t. induction l as [|x l IH]; intros h t; simpl; [discriminate|].
  destruct (sort (fun a b => Nat.leb (score b) (score a)) l) as [|y s] eqn:E.
  - simpl. intros H. inversion H; subst.
    assert (l = []) as ->.
    { apply Permutation_nil. rewrite <- E. apply sort_perm. }
    exists [], []. repeat split; intros e [].
  - destruct (IH y s eq_refl) as [l1 [l2 [-> [H1 H2]]]].
    simpl.
    destruct (Nat.leb_spec (score y) (score x)) as [Hle | Hlt];
      intros H; inversion H; subst.
    + exists [], (l1 ++ y :: l2).
      split; [reflexivity|]. split; [intros e []|].
      intros e He. apply in_app_or in He.
      destruct He as [He | [<- | He]].
      * apply H1 in He. lia.
      * exact Hle.
      * apply H2 in He. lia.
    + exists (x :: l1), l2. repeat split; [|exact H2].
      intros e [<- | He]; [exact Hlt | now apply H1].
Qed.
End SortByScore.

Section SortDescending.
Variable A : Type.
Variable score : A -> nat.
Variable cmp : A -> A -> bool.
Hypothesis cmp_true : forall a b, cmp a b = true -> (score b <= score a)%nat.
Hypothesis cmp_false : forall a b, cmp a b = false -> (score a <= score b)%nat.

Lemma insert_sorted_desc_HdRel y x l :
  cmp x y = false -> HdRel (fun a b => (score b <= score a)%nat) y l ->
  HdRel (fun a b => (score b <= score a)%nat) y (insert_sorted cmp x l).
Proof.
  intros Exy Hy. destruct l as [|z l]; simpl.
  - constructor. now apply cmp_false.
  - destruct (cmp x z); constructor; [now apply cmp_false | now inversion Hy].
Qed.

Lemma sort_desc_Sorted l : Sorted (fun a b => (score b <= score a)%nat) (sort cmp l).
Proof.
  induction l as [|x l IH]; simpl; [constructor|].
  induction IH as [|y s Hs IHs Hy]; simpl; [repeat constructor|].
  destruct (cmp x y) eqn:Exy.
  - constructor; [now constructor | constructor; now apply cmp_true].
  - constructor; [exact IHs | now apply insert_sorted_desc_HdRel].
Qed.
End SortDescending.

Lemma sort_values_stable_descending : descending_by_count sort_values_stable.
Proof.
  intros l. split; [apply sort_perm|].
  apply (sort_desc_Sorted (@snd string nat)).
  - intros a b H. now apply Nat.leb_le in H.
  - intros a b H. apply Nat.leb_gt in H. lia.
Qed.

Lemma sort_values_reversing_descending : descending_by_count sort_values_reversing.
Proof.
  intros l. split; [apply sort_perm|].
  apply (sort_desc_Sorted (@snd string nat)).
  - intros a b H. apply Nat.ltb_lt in H. lia.
  - intros a b H. now apply Nat.ltb_ge in H.
Qed.

(** ** Grouping *)

Lemma filter_all {A} (p : A -> bool) l :
  (forall x, In x l -> p x = true) -> filter p l = l.
Proof.
  induction l as [|x l IH]; intros H; simpl; [reflexivity|].
  rewrite (H x (or_introl eq_refl)). f_equal. apply IH. intros y Hy. apply H. now right.
Qed.

Lemma filter_none {A} (p : A -> bool) l :
  (forall x, In x l -> p x = false) -> filter p l = [].
Proof.
  induction l as [|x l IH]; intros H; simpl; [reflexivity|].
  rewrite (H x (or_introl eq_refl)). apply IH. intros y Hy. apply H. now right.
Qed.

Lemma last_row_app {A} (pre : list A) (o : A) : last_row (pre ++ [o]) = Some o.
Proof.
  induction pre as [|x pre IH]; [reflexivity|].
  simpl. destruct (pre ++ [o]) eqn:E; [destruct pre; discriminate | exact IH].
Qed.

Lemma last_row_Some {A} (l : list A) (o : A) :
  last_row l = Some o -> exists pre, l = pre ++ [o].
Proof.
  induction l as [|x l IH]; simpl; [discriminate|].
  destruct l as [|y l].
  - intros H. inversion H. now exists [].
  - intros H. destruct (IH H) as [pre ->]. now exists (x :: pre).
Qed.

Lemma last_row_nonempty {A} (x : A) (l : list A) : exists o, last_row (x :: l) = Some o.
Proof.
  destruct (exists_last (l := x :: l)) as [pre [o E]]; [discriminate|].
  exists o. rewrite E. apply last_row_app.
Qed.

Section GroupByFacts.
Variable K : Type.
Variables keqb kleb : K -> K -> bool.
Variable by_key : observation -> K.
Hypothesis keqb_eq : forall a b, keqb a b = true <-> a = b.

Lemma keqb_refl k : keqb k k = true.
Proof. now apply keqb_eq. Qed.

Lemma keqb_neq a b : a <> b -> keqb a b = false.
Proof.
  intros H. destruct (keqb a b) eqn:E; [|reflexivity].
  apply keqb_eq in E. contradiction.
Qed.

Lemma uniques_NoDup (col : list K) : NoDup (uniques keqb col).
Proof.
  unfold uniques.
  pose proof (keep_first_NoDup keqb (fun k : K => k) keqb_eq [] col) as H.
  now rewrite map_id in H.
Qed.

Lemma uniques_In k (col : list K) : In k (uniques keqb col) <-> In k col.
Proof.
  unfold uniques. split.
  - intros H. now apply (keep_first_In _ _ keqb_eq) in H.
  - intros H.
    destruct (keep_first_cover keqb (fun k : K => k) keqb_eq [] col k H) as [[] | H'].
    now rewrite map_id in H'.
Qed.

Lemma group_keys_NoDup df : NoDup (group_keys keqb kleb by_key df).
Proof. apply sort_NoDup, uniques_NoDup. Qed.

Lemma group_keys_In k df :
  In k (group_keys keqb kleb by_key df) <-> exists o, In o df /\ by_key o = k.
Proof.
  unfold group_keys. rewrite sort_In, uniques_In, in_map_iff.
  split; intros [o [H1 H2]]; exists o; tauto.
Qed.

Lemma get_group_In o k df :
  In o (get_group keqb by_key k df) <-> In o df /\ by_key o = k.
Proof.
  unfold get_group. rewrite filter_In, keqb_eq. tauto.
Qed.

Lemma flat_map_groupby {R} (f : K * list observation -> list R) df :
  flat_map f (groupby keqb kleb by_key df)
  = flat_map (fun k => f (k, get_group keqb by_key k df))
             (group_keys keqb kleb by_key df).
Proof.
  unfold groupby. induction (group_keys keqb kleb by_key df) as [|k ks IH];
    simpl; [reflexivity | now rewrite IH].
Qed.

(** Rows produced key by key from distinct keys: the rows of one key are
    exactly what that key produced. *)
Lemma filter_flat_map_key {R} (rk : R -> K) (f : K -> list R) ks k :
  NoDup ks -> (forall k' r, In r (f k') -> rk r = k') ->
  filter (fun r => keqb (rk r) k) (flat_map f ks)
  = if mem keqb k ks then f k else [].
Proof.
  intros Hnd Hf. induction ks as [|a ks IH]; simpl; [reflexivity|].
  inversion Hnd as [|? ? Ha Hks]; subst.
  rewrite filter_app, (IH Hks). destruct (keqb k a) eqn:E; simpl.
  - apply keqb_eq in E. subst a.
    assert (Hm : mem keqb k ks = false) by now apply mem_false.
    rewrite Hm, app_nil_r. apply filter_all.
    intros r Hr. rewrite (Hf k r Hr). apply keqb_refl.
  - rewrite filter_none; [reflexivity|].
    intros r Hr. rewrite (Hf a r Hr). apply keqb_neq.
    intros ->. now rewrite keqb_refl in E.
Qed.
End GroupByFacts.

Lemma string_eqb_eq a b : String.eqb a b = true <-> a = b.
Proof. apply String.eqb_eq. Qed.

Lemma groupby_city_last_eq df :
  groupby_city_last df
  = flat_map (fun c => opt_row (last_row (get_group String.eqb city c df)))
             (group_keys String.eqb String.leb city df).
Proof. unfold groupby_city_last. now rewrite flat_map_groupby. Qed.

(** The row of a city in the latest-reading view is the last row of that
    city in the frame. *)
Lemma groupby_city_last_row df c :
  (exists o, In o df /\ city o = c) ->
  exists pre o,
    filter (fun r => String.eqb (city r) c) df = pre ++ [o] /\
    filter (fun r => String.eqb (city r) c) (groupby_city_last df) = [o].
Proof.
  intros Hex.
  assert (Hk : In c (group_keys String.eqb String.leb city df))
    by (apply (group_keys_In String.eqb String.leb city string_eqb_eq); exact Hex).
  rewrite groupby_city_last_eq.
  rewrite (filter_flat_map_key _ string_eqb_eq).
  - apply (mem_In _ string_eqb_eq) in Hk. rewrite Hk.
    destruct Hex as [o0 [Hin Hc]].
    assert (Hg : In o0 (get_group String.eqb city c df))
      by (apply (get_group_In String.eqb String.leb city string_eqb_eq); now split).
    unfold get_group in *.
    destruct (filter (fun o => String.eqb (city o) c) df) as [|x g] eqn:E; [destruct Hg|].
    destruct (last_row_nonempty x g) as [o Ho].
    destruct (last_row_Some _ Ho) as [pre Hpre].
    exists pre, o. now rewrite Ho, Hpre.
  - apply group_keys_NoDup, string_eqb_eq.
  - intros k' r Hr. destruct (last_row _) as [o|] eqn:E; simpl in Hr; [|destruct Hr].
    destruct Hr as [<- | []].
    apply last_row_Some in E. destruct E as [pre E].
    assert (Hin : In o (get_group String.eqb city k' df))
      by (rewrite E; apply in_or_app; right; now left).
    now apply (get_group_In String.eqb String.leb city string_eqb_eq) in Hin.
Qed.

Lemma groupby_city_last_In df row :
  In row (groupby_city_last df) -> In row df.
Proof.
  rewrite groupby_city_last_eq, in_flat_map. intros [c [_ Hr]].
  destruct (last_row _) as [o|] eqn:E; simpl in Hr; [|destruct Hr].
  destruct Hr as [<- | []]. apply last_row_Some in E. destruct E as [pre E].
  assert (Hin : In o (get_group String.eqb city c df))
    by (rewrite E; apply in_or_app; right; now left).
  now apply (get_group_In String.eqb String.leb city string_eqb_eq) in Hin.
Qed.

(** A row of the latest-reading view is the only row of its city there. *)
Lemma groupby_city_last_one_row df row :
  In row (groupby_city_last df) ->
  filter (fun r => String.eqb (city r) (city row)) (groupby_city_last df) = [row].
Proof.
  intros Hin.
  assert (Hex : exists o, In o df /\ city o = city row)
    by (exists row; split; [now apply groupby_city_last_In | reflexivity]).
  destruct (groupby_city_last_row df Hex) as [pre [o [_ Hrow]]].
  assert (Hf : In row (filter (fun r => String.eqb (city r) (city row))
                              (groupby_city_last df)))
    by (apply filter_In; split; [assumption | apply String.eqb_refl]).
  rewrite Hrow in Hf. destruct Hf as [-> | []]. exact Hrow.
Qed.

Lemma sorted_last_greatest (l : list Z) (x : Z) :
  Sorted Z.le (l ++ [x]) -> forall y, In y (l ++ [x]) -> y <= x.
Proof.
  intros H. apply Sorted_StronglySorted in H; [|intros a b c; apply Z.le_trans].
  induction l as [|a l IH]; simpl in *.
  - intros y [<- | []]. lia.
  - inversion H as [|? ? Hs Hall]; subst.
    intros y [<- | Hy]; [|now apply IH].
    rewrite Forall_forall in Hall. apply Hall, in_or_app. right. now left.
Qed.

(** C1 (amended): for every city with at least one observation the
    latest-reading view holds exactly one row, the observation of that city
    that was inserted last; when the observations of the city were inserted
    in non-decreasing observed_at order, no observation of the city has a
    greater observed_at; every row of the view is an observation of the
    store, and the view of an empty store is empty. *)
Theorem latest_per_city_is_last_inserted :
  groupby_city_last [] = [] /\
  (forall (store : list observation) (r : observation),
     In r (groupby_city_last store) -> In r store) /\
  forall (store : list observation) (c : string),
    (exists o, In o store /\ city o = c) ->
    exists pre o,
      filter (fun r => String.eqb (city r) c) store = pre ++ [o] /\
      filter (fun r => String.eqb (city r) c) (groupby_city_last store) = [o] /\
      (Sorted Z.le (map dt (pre ++ [o])) ->
       forall o', In o' store -> city o' = c -> dt o' <= dt o).
Proof.
  split; [reflexivity|]. split; [exact groupby_city_last_In|].
  intros store c Hex.
  destruct (groupby_city_last_row store Hex) as [pre [o [Hpart Hrow]]].
  exists pre, o. repeat split; [assumption | assumption |].
  intros Hs o' Hin Hc.
  rewrite map_app in Hs. simpl in Hs.
  apply (sorted_last_greatest (map dt pre) (dt o) Hs).
  change (map dt pre ++ [dt o]) with (map dt pre ++ map dt [o]).
  rewrite <- map_app, <- Hpart.
  apply in_map, filter_In. split; [assumption|]. now apply String.eqb_eq.
Qed.

(** ** Daily aggregation *)

Lemma Qmax_either x y : Qmax x y = x \/ Qmax x y = y.
Proof. unfold Qmax, GenericMinMax.gmax. destruct (x ?= y)%Q; auto. Qed.

Lemma Qmin_either x y : Qmin x y = x \/ Qmin x y = y.
Proof. unfold Qmin, GenericMinMax.gmin. destruct (x ?= y)%Q; auto. Qed.

Lemma col_max_spec l : forall x,
  In (col_max x l) (x :: l) /\ forall t, In t (x :: l) -> (t <= col_max x l)%Q.
Proof.
  unfold col_max. induction l as [|a l IH]; intros x; simpl.
  - split; [now left|]. intros t [<- | []]. apply Qle_refl.
  - destruct (IH (Qmax x a)) as [Hin Hub]. split.
    + destruct Hin as [Hin | Hin]; [|right; now right].
      rewrite <- Hin. destruct (Qmax_either x a) as [-> | ->]; [now left | right; now left].
    + intros t [<- | [<- | Ht]].
      * eapply Qle_trans; [apply Q.le_max_l | apply Hub; now left].
      * eapply Qle_trans; [apply Q.le_max_r | apply Hub; now left].
      * apply Hub. now right.
Qed.

Lemma col_min_spec l : forall x,
  In (col_min x l) (x :: l) /\ forall t, In t (x :: l) -> (col_min x l <= t)%Q.
Proof.
  unfold col_min. induction l as [|a l IH]; intros x; simpl.
  - split; [now left|]. intros t [<- | []]. apply Qle_refl.
  - destruct (IH (Qmin x a)) as [Hin Hlb]. split.
    + destruct Hin as [Hin | Hin]; [|right; now right].
      rewrite <- Hin. destruct (Qmin_either x a) as [-> | ->]; [now left | right; now left].
    + intros t [<- | [<- | Ht]].
      * eapply Qle_trans; [apply Hlb; now left | apply Q.le_min_l].
      * eapply Qle_trans; [apply Hlb; now left | apply Q.le_min_r].
      * apply Hlb. now right.
Qed.

(** The value in front of [value_counts] occurs in the column and is at
    least as frequent as any other. *)
Lemma value_counts_front (x : list string) top n t :
  value_counts x = (top, n) :: t ->
  In top x /\
  forall v, (count_occ string_dec x v <= count_occ string_dec x top)%nat.
Proof.
  unfold value_counts. intros H.
  destruct (sort_values_descending
              (map (fun v => (v, count_occ string_dec x v)) (uniques String.eqb x)))
    as [Hperm Hsorted].
  rewrite H in Hperm, Hsorted.
  assert (Hin : In (top, n) (map (fun v => (v, count_occ string_dec x v))
                                 (uniques String.eqb x)))
    by (apply (Permutation_in _ Hperm); now left).
  apply in_map_iff in Hin. destruct Hin as [v0 [E Hv0]].
  injection E as Ev En. subst v0.
  apply (proj1 (uniques_In String.eqb string_eqb_eq top x)) in Hv0.
  split; [exact Hv0|].
  apply Sorted_StronglySorted in Hsorted; [|intros a b c Hab Hbc; simpl in *; lia].
  apply StronglySorted_inv in Hsorted. destruct Hsorted as [_ Hall].
  rewrite Forall_forall in Hall.
  intros v. destruct (in_dec string_dec v x) as [Hv | Hv].
  - apply (proj2 (uniques_In String.eqb string_eqb_eq v x)) in Hv.
    assert (Hv' : In (v, count_occ string_dec x v) ((top, n) :: t)).
    { apply (Permutation_in _ (Permutation_sym Hperm)).
      apply in_map_iff. now exists v. }
    destruct Hv' as [E | Hv'].
    + injection E as -> _. apply Nat.le_refl.
    + specialize (Hall _ Hv'). simpl in Hall. rewrite En. exact Hall.
  - apply (count_occ_not_In string_dec) in Hv. rewrite Hv. apply Nat.le_0_l.
Qed.

(** Under a sort that leaves equal counts in the order they came in, the
    value in front is, besides, strictly more frequent than whatever the
    column shows before its first occurrence. *)
Lemma value_counts_front_stable (x : list string) top n t :
  (forall l, sort_values l = sort_values_stable l) ->
  value_counts x = (top, n) :: t ->
  exists pre post,
    x = pre ++ top :: post /\
    (forall v, In v pre ->
       (count_occ string_dec x v < count_occ string_dec x top)%nat).
Proof.
  unfold value_counts. intros Hstable H. rewrite Hstable in H.
  unfold sort_values_stable in H.
  apply (sort_desc_head (@snd string nat)) in H.
  destruct H as [l1 [l2 [Hmap [Hlt Hle]]]].
  apply map_eq_app in Hmap. destruct Hmap as [u1 [u' [Hu [Hl1 Hmap]]]].
  apply map_eq_cons in Hmap. destruct Hmap as [m [u2 [-> [Hm Hl2]]]].
  inversion Hm; subst top n. clear Hm.
  destruct (keep_first_split String.eqb (fun k : string => k) string_eqb_eq [] x _ _ _ Hu)
    as [pre [post [Hx Hpre]]].
  exists pre, post. split; [exact Hx|].
  intros v Hv. destruct (Hpre v Hv) as [[] | Hin]. rewrite map_id in Hin.
  apply (Hlt (v, count_occ string_dec x v)).
  rewrite <- Hl1. apply in_map_iff. now exists v.
Qed.

Lemma value_counts_nonempty (v : string) (x : list string) :
  exists top n t, value_counts (v :: x) = (top, n) :: t.
Proof.
  destruct (value_counts (v :: x)) as [|[top n] t] eqn:E; [|now exists top, n, t].
  exfalso. unfold value_counts in E.
  destruct (sort_values_descending
              (map (fun w => (w, count_occ string_dec (v :: x) w))
                   (uniques String.eqb (v :: x)))) as [P _].
  rewrite E in P. apply Permutation_nil in P.
  unfold uniques in P. simpl in P. discriminate.
Qed.

Lemma day_city_eqb_eq a b : day_city_eqb a b = true <-> a = b.
Proof.
  destruct a as [d1 c1], b as [d2 c2]. unfold day_city_eqb; simpl.
  rewrite andb_true_iff, String.eqb_eq, Z.eqb_eq.
  split; [intros [-> ->]; reflexivity | intros H; inversion H; auto].
Qed.

Lemma agg_key k g row : agg k g = Some row -> (date row, summary_city row) = k.
Proof.
  unfold agg. destruct g as [|o rest]; [discriminate|].
  destruct (value_counts _) as [|[top n] t]; [discriminate|].
  intros H. inversion H. simpl. now destruct k.
Qed.

Lemma agg_nonempty k o rest : exists row, agg k (o :: rest) = Some row.
Proof.
  unfold agg. destruct (value_counts_nonempty (main o) (map main rest)) as [top [n [t E]]].
  simpl map. rewrite E. eauto.
Qed.

(** The rows of one (date, city) key in the summary frame: the single row
    that [agg] makes of the observations of that date and city. *)
Lemma daily_summary_row store d c :
  get_group day_city_eqb day_city (d, c) store <> [] ->
  exists row,
    filter (fun r => day_city_eqb (date r, summary_city r) (d, c))
           (daily_summary_frame store) = [row] /\
    agg (d, c) (get_group day_city_eqb day_city (d, c) store) = Some row.
Proof.
  intros Hne. unfold daily_summary_frame. rewrite flat_map_groupby. simpl.
  rewrite (filter_flat_map_key _ day_city_eqb_eq
             (fun r => (date r, summary_city r))).
  - destruct (get_group day_city_eqb day_city (d, c) store) as [|o rest] eqn:E;
      [now contradiction Hne|].
    assert (Hk : In (d, c) (group_keys day_city_eqb day_city_leb day_city store)).
    { apply (group_keys_In day_city_eqb day_city_leb day_city day_city_eqb_eq).
      exists o. apply (get_group_In day_city_eqb day_city_leb day_city day_city_eqb_eq).
      rewrite E. now left. }
    apply (mem_In _ day_city_eqb_eq) in Hk. rewrite Hk.
    destruct (agg_nonempty (d, c) o rest) as [row Hrow].
    exists row. now rewrite Hrow.
  - apply group_keys_NoDup, day_city_eqb_eq.
  - intros k' r Hr. destruct (agg k' _) as [row|] eqn:E; simpl in Hr; [|destruct Hr].
    destruct Hr as [<- | []]. now apply agg_key in E.
Qed.

Lemma calculate_daily_summary_frame st :
  weather_data st <> [] ->
  daily_summaries (calculate_daily_summary st) = daily_summary_frame (weather_data st).
Proof.
  intros H. unfold calculate_daily_summary.
  destruct (weather_data st); [now contradiction H | reflexivity].
Qed.

Lemma filter_nonempty {A} (p : A -> bool) (l : list A) : filter p l <> [] -> l <> [].
Proof. intros H ->. now apply H. Qed.

Lemma mean_single (t : Q) : (mean [t] == t)%Q.
Proof. unfold mean, Qsum. simpl. field. Qed.

Lemma agg_fields k o rest row :
  agg k (o :: rest) = Some row ->
  avg_temp row = mean (map temp (o :: rest)) /\
  max_temp row = col_max (temp o) (map temp rest) /\
  min_temp row = col_min (temp o) (map temp rest) /\
  avg_humidity row = mean (map humidity (o :: rest)) /\
  avg_wind_speed row = mean (map wind_speed (o :: rest)) /\
  exists n t, value_counts (map main (o :: rest)) = (dominant_weather row, n) :: t.
Proof.
  unfold agg. destruct (value_counts _) as [|[top n] t] eqn:E; [discriminate|].
  intros H. inversion H. simpl. repeat split. now exists n, t.
Qed.

(** C5: every non-empty (calendar date, city) partition of the store has
    exactly one row in the recomputed summary; its avg_temp, avg_humidity
    and avg_wind_speed are the partition's sums divided by its size, its
    max_temp and min_temp are temperatures of the partition that bound all
    the others; a single observation gives avg = max = min = its
    temperature, and temperatures 30, 35, 40 give avg 35, max 40, min 30. *)
Theorem recompute_partition_statistics (st : session_state) (d : Z) (c : string) :
  let part := filter (fun o => Z.eqb (date_of (dt o)) d && String.eqb (city o) c)
                     (weather_data st) in
  part <> [] ->
  exists row,
    filter (fun r => Z.eqb (date r) d && String.eqb (summary_city r) c)
           (daily_summaries (calculate_daily_summary st)) = [row] /\
    (avg_temp row == Qsum (map temp part) / inject_Z (Z.of_nat (List.length part)))%Q /\
    (In (max_temp row) (map temp part) /\
     forall t, In t (map temp part) -> (t <= max_temp row)%Q) /\
    (In (min_temp row) (map temp part) /\
     forall t, In t (map temp part) -> (min_temp row <= t)%Q) /\
    (avg_humidity row
       == Qsum (map humidity part) / inject_Z (Z.of_nat (List.length part)))%Q /\
    (avg_wind_speed row
       == Qsum (map wind_speed part) / inject_Z (Z.of_nat (List.length part)))%Q /\
    (forall o, part = [o] ->
       (avg_temp row == temp o)%Q /\ max_temp row = temp o /\ min_temp row = temp o) /\
    (map temp part = [30; 35; 40]%Q ->
       (avg_temp row == 35)%Q /\ max_temp row = 40%Q /\ min_temp row = 30%Q).
Proof.
  intros part Hne.
  rewrite (calculate_daily_summary_frame st (@filter_nonempty _ _ _ Hne)).
  set (store := weather_data st) in *.
  change part with (get_group day_city_eqb day_city (d, c) store) in *.
  destruct (daily_summary_row store d c Hne) as [row [Hrow Hagg]].
  exists row. split; [exact Hrow|].
  destruct (get_group day_city_eqb day_city (d, c) store) as [|o rest]; [now contradiction Hne|].
  destruct (agg_fields _ _ _ Hagg) as [Havg [Hmax [Hmin [Hhum [Hwind _]]]]].
  rewrite Havg, Hmax, Hmin, Hhum, Hwind.
  unfold mean. rewrite !length_map.
  split; [reflexivity|].
  split; [apply (col_max_spec (map temp rest) (temp o))|].
  split; [apply (col_min_spec (map temp rest) (temp o))|].
  split; [reflexivity|]. split; [reflexivity|]. split.
  - intros o' Ho. inversion Ho; subst. cbn [map List.length].
    split; [apply mean_single | split; reflexivity].
  - cbn [map]. intros Ht. inversion Ht as [[Ho Hrest]].
    destruct rest as [|o1 [|o2 [|o3 rest]]]; try discriminate.
    cbn [map] in *. inversion Hrest as [[H1 H2]].
    rewrite Ho, H1, H2. repeat split.
Qed.

(** C4: the dominant_condition of a non-empty (calendar date, city)
    partition is a condition_main of the partition that no other condition
    of the partition outnumbers, so a condition strictly more frequent than
    all the others is the dominant one.  Which of several equally frequent
    conditions wins is decided by the descending sort of the counts, which
    the code leaves to the library: only under a sort that keeps equal
    counts in the order of first appearance is every condition in front of
    the dominant one's first occurrence strictly less frequent, and Rain,
    Clouds, once each, give Rain; in general they give Rain or Clouds. *)
Theorem dominant_condition_most_frequent
    (st : session_state) (d : Z) (c : string) :
  let part := filter (fun o => Z.eqb (date_of (dt o)) d && String.eqb (city o) c)
                     (weather_data st) in
  part <> [] ->
  exists row,
    filter (fun r => Z.eqb (date r) d && String.eqb (summary_city r) c)
           (daily_summaries (calculate_daily_summary st)) = [row] /\
    In (dominant_weather row) (map main part) /\
    (forall v, (count_occ string_dec (map main part) v
                <= count_occ string_dec (map main part) (dominant_weather row))%nat) /\
    (forall m,
       (forall v, v <> m ->
          (count_occ string_dec (map main part) v
           < count_occ string_dec (map main part) m)%nat) ->
       dominant_weather row = m) /\
    (map main part = ["Rain"; "Clouds"] ->
       dominant_weather row = "Rain" \/ dominant_weather row = "Clouds") /\
    ((forall l, sort_values l = sort_values_stable l) ->
       (exists pre post,
          map main part = pre ++ dominant_weather row :: post /\
          forall v, In v pre ->
            (count_occ string_dec (map main part) v
             < count_occ string_dec (map main part) (dominant_weather row))%nat) /\
       (map main part = ["Rain"; "Clouds"] -> dominant_weather row = "Rain")).
Proof.
  intros part Hne.
  rewrite (calculate_daily_summary_frame st (@filter_nonempty _ _ _ Hne)).
  set (store := weather_data st) in *.
  change part with (get_group day_city_eqb day_city (d, c) store) in *.
  destruct (daily_summary_row store d c Hne) as [row [Hrow Hagg]].
  destruct (get_group day_city_eqb day_city (d, c) store) as [|o rest]; [now contradiction Hne|].
  destruct (agg_fields _ _ _ Hagg) as [_ [_ [_ [_ [_ [n [t Hvc]]]]]]].
  destruct (value_counts_front Hvc) as [Hin Hle].
  exists row. split; [exact Hrow|]. split; [exact Hin|]. split; [exact Hle|].
  split; [|split].
  - intros m Hm. destruct (string_dec (dominant_weather row) m) as [E | NE]; [exact E|].
    specialize (Hm _ NE). specialize (Hle m). lia.
  - intros Hex. rewrite Hex in Hin. simpl in Hin. intuition.
  - intros Hstable.
    destruct (value_counts_front_stable Hstable Hvc) as [pre [post [Hsplit Hlt]]].
    split; [now exists pre, post|].
    intros Hex. rewrite Hex in Hsplit, Hlt.
    destruct pre as [|v pre]; [now inversion Hsplit|].
    inversion Hsplit as [[Hv Hrest]]. subst v.
    specialize (Hlt "Rain" (or_introl eq_refl)).
    destruct pre as [|v pre]; [|destruct pre; discriminate].
    inversion Hrest as [[Hd Hpost]]. rewrite <- Hd in Hlt.
    vm_compute in Hlt. lia.
Qed.

(** ** Alert evaluation *)

Lemma round_half_even_near (y : Q) :
  0 <= Qnum y ->
  0 <= round_half_even y /\
  2 * Z.abs (Qnum y - round_half_even y * Z.pos (Qden y)) <= Z.pos (Qden y).
Proof.
  intros Hn. unfold round_half_even.
  set (n := Qnum y) in *. set (d := Z.pos (Qden y)).
  assert (Hd : 0 < d) by (unfold d; lia).
  pose proof (Z.div_mod n d ltac:(lia)) as Hdm.
  pose proof (Z.mod_pos_bound n d Hd) as Hr.
  assert (Hf : 0 <= n / d) by (apply Z.div_pos; lia).
  destruct (Z.compare_spec (2 * (n mod d)) d) as [He | Hl | Hg].
  - destruct (Z.even (n / d)); split; lia.
  - split; lia.
  - split; lia.
Qed.

Lemma format_1f_whole (x : Q) (z : Z) :
  0 <= z -> (x == inject_Z z)%Q ->
  format_1f x = (str_int z ++ ".0")%string.
Proof.
  intros Hz Hx. unfold Qeq in Hx. simpl in Hx.
  unfold format_1f, round_half_even. simpl Qnum. simpl Qden.
  set (d := Z.pos (Qden x)) in *.
  assert (Hd : 0 < d) by (unfold d; lia).
  assert (Hn : Qnum x = z * d) by lia.
  rewrite Hn.
  assert (E1 : Z.abs (z * d) * 10 = (10 * z) * d) by nia.
  rewrite E1, Z.div_mul, Z.mod_mul by lia.
  assert (E2 : (2 * 0 ?= d)%Z = Lt) by (apply Z.compare_lt_iff; lia).
  rewrite E2.
  assert (E3 : (z * d <? 0)%Z = false) by (apply Z.ltb_ge; nia).
  rewrite E3.
  replace (10 * z / 10) with z by (rewrite Z.mul_comm, Z.div_mul; lia).
  replace ((10 * z) mod 10) with 0 by (rewrite Z.mul_comm, Z.mod_mul; lia).
  reflexivity.
Qed.

Lemma format_1f_spec (x : Q) :
  exists tenths : Z,
    0 <= tenths /\
    format_1f x = ((if (Qnum x <? 0)%Z then "-" else EmptyString)
                   ++ str_int (tenths / 10) ++ "." ++ str_int (tenths mod 10))%string /\
    (Qabs (inject_Z tenths / 10 - Qabs x) <= 1 # 20)%Q.
Proof.
  set (y := (Z.abs (Qnum x) * 10 # Qden x)).
  destruct (round_half_even_near y) as [H0 Hnear]; [simpl; lia|].
  exists (round_half_even y). split; [exact H0|]. split; [reflexivity|].
  set (t := round_half_even y) in *.
  destruct x as [n d].
  assert (Hn : 2 * Z.abs (Z.abs n * 10 - t * Z.pos d) <= Z.pos d) by exact Hnear.
  clear Hnear. clearbody t. clear y.
  apply Qabs_Qle_condition.
  unfold Qle, Qminus, Qplus, Qopp, Qdiv, Qmult, Qinv, inject_Z, Qabs.
  cbn -[Z.mul Z.add Z.abs Z.opp Pos.mul].
  rewrite !Pos2Z.inj_mul.
  split; lia.
Qed.

Lemma filter_singleton_split {A} (p : A -> bool) (l : list A) (x : A) :
  filter p l = [x] ->
  exists l1 l2, l = l1 ++ x :: l2 /\ forall r, In r (l1 ++ l2) -> p r = false.
Proof.
  induction l as [|a l IH]; simpl; [discriminate|].
  destruct (p a) eqn:E.
  - intros H. inversion H; subst. exists [], l. split; [reflexivity|].
    simpl. intros r Hr. destruct (p r) eqn:Er; [|reflexivity].
    assert (Hin : In r (filter p l)) by (apply filter_In; now split).
    rewrite H2 in Hin. destruct Hin.
  - intros H. destruct (IH H) as [l1 [l2 [-> Hall]]].
    exists (a :: l1), l2. split; [reflexivity|].
    intros r [<- | Hr]; [exact E | now apply Hall].
Qed.

Lemma prefix_append (p s : string) : prefix p (p ++ s)%string = true.
Proof.
  induction p as [|a p IH]; simpl; [now destruct s|].
  destruct (ascii_dec a a) as [_ | Hne]; [exact IH | now contradiction Hne].
Qed.

(** The sixteen outcomes of the four tests of a row. *)
Ltac row_alert_cases :=
  unfold row_alerts;
  match goal with
  | |- context [exceeds (temp ?r) ?a] => destruct (exceeds (temp r) a)
  end;
  match goal with
  | |- context [exceeds (humidity ?r) ?a] => destruct (exceeds (humidity r) a)
  end;
  match goal with
  | |- context [exceeds (wind_speed ?r) ?a] => destruct (exceeds (wind_speed r) a)
  end;
  match goal with
  | |- context [String.eqb (main ?r) ?a] => destruct (String.eqb (main r) a)
  end.

Section AlertFacts.
Variable str_number : Q -> string.

Lemma temp_alert_is_temp th row : is_temp_alert (temp_alert th row) = true.
Proof. apply prefix_append. Qed.

Lemma humidity_alert_is_humidity th row :
  is_humidity_alert (humidity_alert str_number th row) = true.
Proof. apply prefix_append. Qed.

Lemma wind_alert_is_wind th row : is_wind_alert (wind_alert str_number th row) = true.
Proof. apply prefix_append. Qed.

Lemma fold_left_log {R} (f : R -> list string) (rows : list R) (log : list string) :
  fold_left (fun acc row => acc ++ f row) rows log = log ++ flat_map f rows.
Proof.
  revert log. induction rows as [|r rows IH]; intros log; simpl.
  - now rewrite app_nil_r.
  - now rewrite IH, app_assoc.
Qed.

(** What one evaluation appends to the log: the alerts of the rows of the
    latest-reading view, row after row; the row of a city stands alone
    among rows of other cities. *)
Lemma check_alerts_row_block th st row :
  In row (groupby_city_last (weather_data st)) ->
  exists before after,
    groupby_city_last (weather_data st) = before ++ row :: after /\
    (forall r, In r (before ++ after) -> city r <> city row) /\
    alerts (check_alerts str_number th st)
    = alerts st ++ flat_map (row_alerts str_number th) before
        ++ row_alerts str_number th row
        ++ flat_map (row_alerts str_number th) after.
Proof.
  intros Hin.
  destruct (filter_singleton_split _ _ (groupby_city_last_one_row _ _ Hin))
    as [before [after [Hsplit Hother]]].
  exists before, after. split; [exact Hsplit|]. split.
  - intros r Hr Hc. specialize (Hother r Hr). apply String.eqb_neq in Hother. auto.
  - unfold check_alerts. destruct (weather_data st) as [|o wd] eqn:E;
      [destruct Hin|].
    cbn [empty alerts]. rewrite fold_left_log, Hsplit, flat_map_app. reflexivity.
Qed.

Lemma row_alerts_at_most_four th row :
  (List.length (row_alerts str_number th row) <= 4)%nat.
Proof. row_alert_cases; simpl; lia. Qed.

Lemma exceeds_true a b : exceeds a b = true <-> (inject_Z b < a)%Q.
Proof.
  unfold exceeds. rewrite negb_true_iff, <- not_true_iff_false, Qle_bool_iff.
  split; [apply Qnot_le_lt | apply Qlt_not_le].
Qed.

Lemma exceeds_equal a b : (a == inject_Z b)%Q -> exceeds a b = false.
Proof.
  intros H. unfold exceeds. rewrite negb_false_iff, Qle_bool_iff, H. apply Qle_refl.
Qed.

Lemma temp_alerts_of_row th row :
  filter is_temp_alert (row_alerts str_number th row)
  = if exceeds (temp row) (th_temp th) then [temp_alert th row] else [].
Proof.
  row_alert_cases; cbn [app filter]; rewrite ?temp_alert_is_temp; reflexivity.
Qed.

Lemma humidity_alerts_of_row th row :
  filter is_humidity_alert (row_alerts str_number th row)
  = if exceeds (humidity row) (th_humidity th)
    then [humidity_alert str_number th row] else [].
Proof.
  row_alert_cases; cbn [app filter]; rewrite ?humidity_alert_is_humidity; reflexivity.
Qed.

Lemma wind_alerts_of_row th row :
  filter is_wind_alert (row_alerts str_number th row)
  = if exceeds (wind_speed row) (th_wind_speed th)
    then [wind_alert str_number th row] else [].
Proof.
  row_alert_cases; cbn [app filter]; rewrite ?wind_alert_is_wind; reflexivity.
Qed.
End AlertFacts.

(** C6: a city of the latest-reading view whose temperature is strictly
    above the temperature threshold gets exactly one temperature alert in
    the evaluation: its row is the only row of the city, the alerts of the
    row hold one temperature alert, and that message carries the city name
    and the temperature printed with one decimal, at most 0.05 away from
    the reading; every row yields at most four alerts; Mumbai at 36 against
    a threshold of 35 yields the message with "Mumbai" and "36.0". *)
Theorem evaluate_temperature_alert
    (str_number : Q -> string) (th : thresholds) (st : session_state)
    (row : observation) :
  In row (groupby_city_last (weather_data st)) ->
  (inject_Z (th_temp th) < temp row)%Q ->
  exists before after tenths,
    groupby_city_last (weather_data st) = before ++ row :: after /\
    (forall r, In r (before ++ after) -> city r <> city row) /\
    alerts (check_alerts str_number th st)
    = alerts st ++ flat_map (row_alerts str_number th) before
        ++ row_alerts str_number th row
        ++ flat_map (row_alerts str_number th) after /\
    filter is_temp_alert (row_alerts str_number th row) = [temp_alert th row] /\
    temp_alert th row
    = ("🌡️ Alert: Temperature in " ++ city row ++ " exceeded "
       ++ str_int (th_temp th) ++ "°C. Current temperature: "
       ++ format_1f (temp row) ++ "°C")%string /\
    format_1f (temp row)
    = ((if (Qnum (temp row) <? 0)%Z then "-" else EmptyString)
       ++ str_int (tenths / 10) ++ "." ++ str_int (tenths mod 10))%string /\
    (Qabs (inject_Z tenths / 10 - Qabs (temp row)) <= 1 # 20)%Q /\
    (forall r, (List.length (row_alerts str_number th r) <= 4)%nat) /\
    (city row = "Mumbai" -> th_temp th = 35 -> (temp row == 36)%Q ->
     temp_alert th row
     = "🌡️ Alert: Temperature in Mumbai exceeded 35°C. Current temperature: 36.0°C").
Proof.
  intros Hin Hgt.
  destruct (check_alerts_row_block str_number th st row Hin)
    as [before [after [Hsplit [Hother Hlog]]]].
  destruct (format_1f_spec (temp row)) as [tenths [_ [Hfmt Hnear]]].
  exists before, after, tenths.
  split; [exact Hsplit|]. split; [exact Hother|]. split; [exact Hlog|].
  split.
  { rewrite temp_alerts_of_row.
    now rewrite (proj2 (exceeds_true (temp row) (th_temp th)) Hgt). }
  split; [reflexivity|]. split; [exact Hfmt|]. split; [exact Hnear|].
  split; [intros r; apply row_alerts_at_most_four|].
  intros Hc Hth Ht. unfold temp_alert.
  rewrite Hc, Hth, (@format_1f_whole (temp row) 36 ltac:(lia) Ht). reflexivity.
Qed.

(** C10: a city of the latest-reading view whose temperature, humidity or
    wind speed equals its threshold gets no alert for that metric: the three
    numeric comparisons are strict. *)
Theorem boundary_value_raises_no_alert
    (str_number : Q -> string) (th : thresholds) (st : session_state)
    (row : observation) :
  In row (groupby_city_last (weather_data st)) ->
  exists before after,
    groupby_city_last (weather_data st) = before ++ row :: after /\
    (forall r, In r (before ++ after) -> city r <> city row) /\
    alerts (check_alerts str_number th st)
    = alerts st ++ flat_map (row_alerts str_number th) before
        ++ row_alerts str_number th row
        ++ flat_map (row_alerts str_number th) after /\
    ((temp row == inject_Z (th_temp th))%Q ->
     filter is_temp_alert (row_alerts str_number th row) = []) /\
    ((humidity row == inject_Z (th_humidity th))%Q ->
     filter is_humidity_alert (row_alerts str_number th row) = []) /\
    ((wind_speed row == inject_Z (th_wind_speed th))%Q ->
     filter is_wind_alert (row_alerts str_number th row) = []).
Proof.
  intros Hin.
  destruct (check_alerts_row_block str_number th st row Hin)
    as [before [after [Hsplit [Hother Hlog]]]].
  exists before, after.
  split; [exact Hsplit|]. split; [exact Hother|]. split; [exact Hlog|].
  repeat split; intros Heq.
  - now rewrite temp_alerts_of_row, (exceeds_equal Heq).
  - now rewrite humidity_alerts_of_row, (exceeds_equal Heq).
  - now rewrite wind_alerts_of_row, (exceeds_equal Heq).
Qed.

(** C7: on an empty store the recomputation leaves the session, and with
    it the summaries computed before, exactly as it was; the summary of an
    empty store is empty. *)
Theorem recompute_on_empty_store_is_noop (st : session_state) :
  weather_data st = [] ->
  calculate_daily_summary st = st /\
  daily_summaries (calculate_daily_summary st) = daily_summaries st /\
  daily_summary_frame (weather_data st) = [].
Proof.
  intros H. unfold calculate_daily_summary. rewrite H. repeat split.
Qed.

(** ** The refresh cycle *)


Lemma fetch_weather_data_ok w c data rt :
  http_get w c = inr data -> usable_body w data = true ->
  fetch_weather_data w c rt
  = (inr (Some (reading_of w c data)),
     {| session := session rt;
        fetch_calls := fetch_calls rt ++ [c];
        st_errors := st_errors rt |}).
Proof.
  intros H Hu. unfold fetch_weather_data, bind, try_except, response_json, log_call.
  rewrite H. unfold reading_of, first_entry, fromtimestamp, ret. cbv beta iota.
  unfold usable_body in Hu. apply andb_prop in Hu. destruct Hu as [Hw Ht].
  destruct (p_weather data) as [[|e l]|]; [discriminate Hw | |];
    (destruct (p_dt data) as [timestamp|]; simpl in *;
     [rewrite Ht | rewrite clock_datetime_exists]; reflexivity).
Qed.





(** Absent keys give the documented defaults. *)
Lemma reading_defaults c data e_main e_desc observed_at :
  (w_main e_main = None -> main (reading c data e_main e_desc observed_at) = "Unknown") /\
  (w_description e_desc = None ->
   description (reading c data e_main e_desc observed_at) = "Unknown") /\
  (p_main data = None ->
   temp (reading c data e_main e_desc observed_at) = 0%Q /\
   feels_like (reading c data e_main e_desc observed_at) = 0%Q /\
   humidity (reading c data e_main e_desc observed_at) = 0%Q /\
   pressure (reading c data e_main e_desc observed_at) = 0%Q) /\
  (forall m, p_main data = Some m ->
     (m_temp m = None -> temp (reading c data e_main e_desc observed_at) = 0%Q) /\
     (m_feels_like m = None ->
      feels_like (reading c data e_main e_desc observed_at) = 0%Q) /\
     (m_humidity m = None -> humidity (reading c data e_main e_desc observed_at) = 0%Q) /\
     (m_pressure m = None -> pressure (reading c data e_main e_desc observed_at) = 0%Q)) /\
  (p_wind data = None \/ p_wind data = Some no_wind ->
   wind_speed (reading c data e_main e_desc observed_at) = 0%Q) /\
  (forall w, p_dt data = None ->
     dt (reading_of w c data) = clock w c + utc_offset w) /\
  (p_weather data = None -> first_entry data = no_entry).
Proof.
  unfold reading_of, reading, first_entry; simpl. repeat split.
  - now intros ->.
  - now intros ->.
  - now rewrite H.
  - now rewrite H.
  - now rewrite H.
  - now rewrite H.
  - rewrite H. simpl. now intros ->.
  - rewrite H. simpl. now intros ->.
  - rewrite H. simpl. now intros ->.
  - rewrite H. simpl. now intros ->.
  - intros [-> | ->]; reflexivity.
  - now intros w ->.
  - now intros ->.
Qed.




(** C9, at the failing input: a body whose weather list is present and
    empty makes the construction of the observation raise IndexError, which
    the handler for request errors lets through; the whole cycle stops and
    nothing is merged. *)
Theorem empty_weather_list_raises :
  http_get world_empty_weather "Chennai" = inr payload_empty_weather /\
  fst (fetch_weather_data world_empty_weather "Chennai" init_runtime) = inl IndexError /\
  fst (update_weather_data world_empty_weather init_runtime) = inl IndexError /\
  weather_data (session (snd (update_weather_data world_empty_weather init_runtime))) = [].
Proof. vm_compute. repeat split. Qed.

(* ===================================================================== *)
(** * Further properties of the code *)
(* ===================================================================== *)

(** ** The provider call and the merge *)


(** X2: a body that has none of the keys weather, main, wind and dt gives
    a reading with condition and description "Unknown", all five numbers 0
    and the clock reading, shifted to local time, as its timestamp. *)
Theorem fetch_weather_data_bare_body (w : world) (c : string) (rt : runtime)
    (data : payload) :
  http_get w c = inr data ->
  p_weather data = None -> p_main data = None ->
  p_wind data = None -> p_dt data = None ->
  fst (fetch_weather_data w c rt)
  = inr (Some {| city := c; main := "Unknown"; description := "Unknown";
                 temp := 0%Q; feels_like := 0%Q; humidity := 0%Q;
                 pressure := 0%Q; wind_speed := 0%Q;
                 dt := clock w c + utc_offset w |}).
Proof.
  intros E Hw Hm Hwind Hdt.
  assert (Hok : usable_body w data = true)
    by (unfold usable_body; now rewrite Hw, Hdt).
  rewrite (fetch_weather_data_ok w c rt E Hok).
  unfold reading_of, reading, first_entry. rewrite Hw, Hm, Hwind, Hdt. reflexivity.
Qed.








Lemma keep_first_app {A K} (keqb : K -> K -> bool) (key : A -> K) l1 : forall seen l2,
  keep_first keqb key seen (l1 ++ l2)
  = keep_first keqb key seen l1
      ++ keep_first keqb key (rev (map key (keep_first keqb key seen l1)) ++ seen) l2.
Proof.
  induction l1 as [|x l1 IH]; intros seen l2; simpl; [reflexivity|].
  destruct (mem keqb (key x) seen); [apply IH|].
  simpl. rewrite IH, <- app_assoc. reflexivity.
Qed.

Lemma NoDup_map_inj {A B} (f : A -> B) (l : list A) (a b : A) :
  NoDup (map f l) -> In a l -> In b l -> f a = f b -> a = b.
Proof.
  induction l as [|x l IH]; simpl; [tauto|].
  intros Hnd. inversion Hnd as [|? ? Hx Hl]; subst.
  intros [-> | Ha] [-> | Hb] Hf; auto.
  - exfalso. apply Hx. rewrite Hf. now apply in_map.
  - exfalso. apply Hx. rewrite <- Hf. now apply in_map.
Qed.

(** X4: on a reachable store the merge only appends: the rows the store
    had stay where they were, and what is added are readings of the batch
    whose (city, dt) the store did not have, no two of them with the same
    (city, dt). *)
Theorem merge_only_appends (store new_df : list observation) :
  reachable store ->
  exists added,
    merge_new_data store new_df = store ++ added /\
    (forall o, In o added ->
       In o new_df /\ ~ In (obs_key o) (map obs_key store)) /\
    NoDup (map obs_key added).
Proof.
  intros Hr. apply reachable_NoDup in Hr.
  unfold merge_new_data. destruct (empty new_df) eqn:Ee.
  - exists []. rewrite app_nil_r.
    split; [reflexivity|]. split; [intros o [] | constructor].
  - unfold drop_duplicates. rewrite keep_first_app.
    assert (Hfix : keep_first obs_key_eqb obs_key [] store = store)
      by (apply keep_first_fixed; [apply obs_key_eqb_eq | exact Hr | auto]).
    rewrite Hfix. eexists. split; [reflexivity|]. split.
    + intros o Ho. apply (keep_first_In _ _ obs_key_eqb_eq) in Ho.
      destruct Ho as [Hin Hseen]. split; [exact Hin|].
      intros Hk. apply Hseen. apply in_or_app. left. now apply in_rev in Hk.
    + apply keep_first_NoDup, obs_key_eqb_eq.
Qed.

(** X5: an entry of a reachable store is never replaced: after a merge the
    only entry with its city and dt is still the entry itself, whatever the
    batch holds for that city and dt. *)
Theorem stored_entry_is_never_replaced
    (store new_df : list observation) (old o : observation) :
  reachable store -> In old store ->
  In o (merge_new_data store new_df) ->
  city o = city old -> dt o = dt old ->
  o = old.
Proof.
  intros Hr Hold Ho Hc Ht.
  assert (Hnd : NoDup (map obs_key (merge_new_data store new_df)))
    by (apply reachable_NoDup; now constructor).
  apply (NoDup_map_inj obs_key _ o old Hnd Ho).
  - unfold merge_new_data in *. destruct (empty new_df); [exact Hold|].
    unfold drop_duplicates. rewrite keep_first_app.
    apply reachable_NoDup in Hr.
    rewrite (keep_first_fixed obs_key_eqb obs_key obs_key_eqb_eq [] store Hr) by auto.
    apply in_or_app. now left.
  - unfold obs_key. congruence.
Qed.

(** ** Order and content of the grouped frames *)

Section SortSorted.
Variable A : Type.
Variable leb : A -> A -> bool.
Hypothesis leb_total : forall a b, leb a b = true \/ leb b a = true.

Lemma insert_sorted_HdRel y x l :
  leb x y = false -> HdRel (fun a b => leb a b = true) y l ->
  HdRel (fun a b => leb a b = true) y (insert_sorted leb x l).
Proof.
  intros Exy Hy. destruct l as [|z l]; simpl.
  - constructor. destruct (leb_total y x) as [H | H]; [exact H | congruence].
  - destruct (leb x z).
    + constructor. destruct (leb_total y x) as [H | H]; [exact H | congruence].
    + constructor. now inversion Hy.
Qed.

Lemma insert_sorted_Sorted x l :
  Sorted (fun a b => leb a b = true) l ->
  Sorted (fun a b => leb a b = true) (insert_sorted leb x l).
Proof.
  induction 1 as [|y l Hs IH Hy]; simpl.
  - repeat constructor.
  - destruct (leb x y) eqn:Exy.
    + constructor; [now constructor | now constructor].
    + constructor; [exact IH | now apply insert_sorted_HdRel].
Qed.

Lemma sort_Sorted l : Sorted (fun a b => leb a b = true) (sort leb l).
Proof.
  induction l as [|x l IH]; simpl; [constructor | now apply insert_sorted_Sorted].
Qed.
End SortSorted.

Lemma Sorted_strict {A} (R : A -> A -> Prop) (l : list A) :
  Sorted R l -> NoDup l -> Sorted (fun a b => R a b /\ a <> b) l.
Proof.
  induction 1 as [|x l Hs IH Hx]; intros Hnd; [constructor|].
  inversion Hnd as [|? ? Hnin Hl]; subst.
  constructor; [now apply IH|].
  destruct Hx as [|y l Hxy]; constructor.
  split; [exact Hxy|]. intros ->. apply Hnin. now left.
Qed.

Lemma Sorted_map {A B} (f : A -> B) (R : B -> B -> Prop) (l : list A) :
  Sorted R (map f l) -> Sorted (fun a b => R (f a) (f b)) l.
Proof.
  induction l as [|x l IH]; simpl; intros H; [constructor|].
  inversion H as [|? ? Hs Hx]; subst.
  constructor; [now apply IH|].
  destruct l; simpl in *; constructor. now inversion Hx.
Qed.

Lemma day_city_leb_total a b : day_city_leb a b = true \/ day_city_leb b a = true.
Proof.
  unfold day_city_leb.
  destruct (Z.compare_spec (fst a) (fst b)) as [E | L | G].
  - rewrite E, Z.ltb_irrefl, Z.eqb_refl. simpl. apply String.leb_total.
  - left. apply Z.ltb_lt in L. now rewrite L.
  - right. apply Z.ltb_lt in G. now rewrite G.
Qed.

Lemma get_group_of_key {K} (keqb kleb : K -> K -> bool) (by_key : observation -> K)
    (keqb_eq : forall a b, keqb a b = true <-> a = b) df k :
  In k (group_keys keqb kleb by_key df) -> get_group keqb by_key k df <> [].
Proof.
  intros Hk. apply (group_keys_In keqb kleb by_key keqb_eq) in Hk.
  destruct Hk as [o Ho].
  apply (get_group_In keqb kleb by_key keqb_eq) in Ho.
  intros E. rewrite E in Ho. destruct Ho.
Qed.

(** The keys of the summary rows are the group keys, in their order. *)
Lemma daily_summary_keys df :
  map (fun r => (date r, summary_city r)) (daily_summary_frame df)
  = group_keys day_city_eqb day_city_leb day_city df.
Proof.
  unfold daily_summary_frame. rewrite flat_map_groupby. cbn [fst snd].
  assert (H : forall ks,
             (forall k, In k ks -> get_group day_city_eqb day_city k df <> []) ->
             map (fun r => (date r, summary_city r))
                 (flat_map (fun k => opt_row (agg k (get_group day_city_eqb day_city k df)))
                    ks) = ks).
  { induction ks as [|k ks IH]; intros Hne; [reflexivity|].
    cbn [flat_map]. rewrite map_app, IH by (intros k' Hk'; apply Hne; now right).
    destruct (get_group day_city_eqb day_city k df) as [|o rest] eqn:E;
      [exfalso; now apply (Hne k (or_introl eq_refl))|].
    destruct (agg_nonempty k o rest) as [row Hrow]. rewrite Hrow. simpl.
    now rewrite (agg_key _ _ Hrow). }
  apply H. intros k Hk. now apply (get_group_of_key _ day_city_leb _ day_city_eqb_eq).
Qed.

(** The cities of the latest-reading view are the group keys, in their
    order. *)
Lemma groupby_city_last_keys df :
  map city (groupby_city_last df) = group_keys String.eqb String.leb city df.
Proof.
  rewrite groupby_city_last_eq.
  assert (H : forall ks,
             (forall k, In k ks -> get_group String.eqb city k df <> []) ->
             map city (flat_map (fun c => opt_row (last_row (get_group String.eqb city c df)))
                         ks) = ks).
  { induction ks as [|k ks IH]; intros Hne; [reflexivity|].
    cbn [flat_map]. rewrite map_app, IH by (intros k' Hk'; apply Hne; now right).
    destruct (get_group String.eqb city k df) as [|o rest] eqn:E;
      [exfalso; now apply (Hne k (or_introl eq_refl))|].
    destruct (last_row_nonempty o rest) as [r Hr]. rewrite Hr. simpl. f_equal.
    apply last_row_Some in Hr. destruct Hr as [pre Hpre].
    assert (Hin : In r (get_group String.eqb city k df))
      by (rewrite E, Hpre; apply in_or_app; right; now left).
    now apply (get_group_In String.eqb String.leb city string_eqb_eq) in Hin. }
  apply H. intros k Hk. now apply (get_group_of_key _ String.leb _ string_eqb_eq).
Qed.

(** X6: after a recomputation over a store with rows the summary rows are
    in strictly ascending order of date and, within a date, of city name, so
    no two rows share date and city. *)
Theorem summary_rows_ascending (st : session_state) :
  weather_data st <> [] ->
  Sorted (fun a b =>
            (date a < date b \/
             (date a = date b /\ String.leb (summary_city a) (summary_city b) = true)) /\
            (date a, summary_city a) <> (date b, summary_city b))
         (daily_summaries (calculate_daily_summary st)).
Proof.
  intros Hne. rewrite (calculate_daily_summary_frame st Hne).
  apply (@Sorted_map _ _ (fun r => (date r, summary_city r))
           (fun a b => (fst a < fst b \/
                        (fst a = fst b /\ String.leb (snd a) (snd b) = true)) /\ a <> b)).
  rewrite daily_summary_keys.
  assert (Hs : Sorted (fun a b => day_city_leb a b = true /\ a <> b)
                 (group_keys day_city_eqb day_city_leb day_city (weather_data st))).
  { apply Sorted_strict.
    - apply sort_Sorted, day_city_leb_total.
    - apply group_keys_NoDup, day_city_eqb_eq. }
  eapply Sorted_ind with (P := fun l => Sorted _ l); [constructor | | exact Hs].
  intros a l _ IH Ha. constructor; [exact IH|].
  destruct Ha as [|b l [Hab Hneq]]; constructor. split; [|exact Hneq].
  unfold day_city_leb in Hab. apply orb_true_iff in Hab.
  destruct Hab as [H | H].
  - left. now apply Z.ltb_lt.
  - right. apply andb_true_iff in H. destruct H as [H1 H2].
    split; [now apply Z.eqb_eq | exact H2].
Qed.

(** X7: the summary is sparse: every row of a recomputed summary stands
    for a date and a city for which the store holds an observation. *)
Theorem summary_row_has_observation (st : session_state) (row : daily_summary) :
  weather_data st <> [] ->
  In row (daily_summaries (calculate_daily_summary st)) ->
  exists o, In o (weather_data st) /\
            date_of (dt o) = date row /\ city o = summary_city row.
Proof.
  intros Hne Hin. rewrite (calculate_daily_summary_frame st Hne) in Hin.
  assert (Hk : In (date row, summary_city row)
                  (group_keys day_city_eqb day_city_leb day_city (weather_data st))).
  { rewrite <- daily_summary_keys.
    apply (in_map (fun r => (date r, summary_city r))). exact Hin. }
  apply (group_keys_In day_city_eqb day_city_leb day_city day_city_eqb_eq) in Hk.
  destruct Hk as [o [Ho Hkey]]. exists o. unfold day_city in Hkey.
  inversion Hkey. auto.
Qed.

(** X8: the rows of the latest-reading view come in strictly ascending
    order of city name. *)
Theorem latest_view_ascending_by_city (df : list observation) :
  Sorted (fun a b => String.leb (city a) (city b) = true /\ city a <> city b)
         (groupby_city_last df).
Proof.
  apply (@Sorted_map _ _ city (fun a b => String.leb a b = true /\ a <> b)).
  rewrite groupby_city_last_keys. apply Sorted_strict.
  - apply sort_Sorted, String.leb_total.
  - apply group_keys_NoDup, string_eqb_eq.
Qed.

(** ** The alert log *)

Lemma check_alerts_log str_number th st :
  alerts (check_alerts str_number th st)
  = alerts st ++ flat_map (row_alerts str_number th) (groupby_city_last (weather_data st)).
Proof.
  unfold check_alerts. destruct (weather_data st) as [|o wd] eqn:E.
  - cbn [empty]. change (groupby_city_last []) with (@nil observation).
    simpl. now rewrite app_nil_r.
  - cbn [empty alerts]. apply fold_left_log.
Qed.

Lemma check_alerts_frame str_number th st :
  weather_data (check_alerts str_number th st) = weather_data st /\
  daily_summaries (check_alerts str_number th st) = daily_summaries st.
Proof.
  unfold check_alerts. destruct (empty (weather_data st)); split; reflexivity.
Qed.

Lemma flat_map_length_le {A B} (f : A -> list B) (n : nat) (l : list A) :
  (forall x, List.length (f x) <= n)%nat ->
  (List.length (flat_map f l) <= n * List.length l)%nat.
Proof.
  intros H. induction l as [|x l IH]; simpl; [lia|].
  rewrite length_app. specialize (H x). lia.
Qed.

(** X9: an evaluation changes neither the store nor the summaries and
    only appends to the alert log: the old log is a prefix of the new one,
    and at most four messages per row of the latest-reading view are
    added. *)
Theorem check_alerts_only_appends
    (str_number : Q -> string) (th : thresholds) (st : session_state) :
  weather_data (check_alerts str_number th st) = weather_data st /\
  daily_summaries (check_alerts str_number th st) = daily_summaries st /\
  exists added,
    alerts (check_alerts str_number th st) = alerts st ++ added /\
    (List.length added <= 4 * List.length (groupby_city_last (weather_data st)))%nat.
Proof.
  destruct (check_alerts_frame str_number th st) as [H1 H2].
  split; [exact H1|]. split; [exact H2|].
  eexists. split; [apply check_alerts_log|].
  apply flat_map_length_le. intros row. apply row_alerts_at_most_four.
Qed.

(** X10: the log does not remember what it already holds: a second
    evaluation over the same store and thresholds appends the same messages
    once more. *)
Theorem check_alerts_twice_repeats_alerts
    (str_number : Q -> string) (th : thresholds) (st : session_state) :
  exists added,
    alerts (check_alerts str_number th st) = alerts st ++ added /\
    alerts (check_alerts str_number th (check_alerts str_number th st))
    = alerts st ++ added ++ added.
Proof.
  exists (flat_map (row_alerts str_number th) (groupby_city_last (weather_data st))).
  split; [apply check_alerts_log|].
  rewrite check_alerts_log, (proj1 (check_alerts_frame str_number th st)),
    check_alerts_log, <- app_assoc. reflexivity.
Qed.

Lemma exceeds_not_above a b : (a <= inject_Z b)%Q -> exceeds a b = false.
Proof.
  intros H. unfold exceeds. now rewrite negb_false_iff, Qle_bool_iff.
Qed.

Lemma condition_alert_is_condition th row :
  is_condition_alert (condition_alert th row) = true.
Proof. apply prefix_append. Qed.

Lemma condition_alerts_of_row str_number th row :
  filter is_condition_alert (row_alerts str_number th row)
  = if String.eqb (main row) (th_condition th) then [condition_alert th row] else [].
Proof.
  row_alert_cases; cbn [app filter]; rewrite ?condition_alert_is_condition; reflexivity.
Qed.

(** X11: of the alerts of one row, the humidity alert is there exactly
    when the humidity is strictly above its threshold, the wind alert
    exactly when the wind speed is strictly above its threshold, and the
    condition alert exactly when the condition of the row is, letter for
    letter, the watched one; each of them at most once. *)
Theorem humidity_wind_condition_alerts
    (str_number : Q -> string) (th : thresholds) (row : observation) :
  ((inject_Z (th_humidity th) < humidity row)%Q ->
   filter is_humidity_alert (row_alerts str_number th row)
   = [humidity_alert str_number th row]) /\
  ((humidity row <= inject_Z (th_humidity th))%Q ->
   filter is_humidity_alert (row_alerts str_number th row) = []) /\
  ((inject_Z (th_wind_speed th) < wind_speed row)%Q ->
   filter is_wind_alert (row_alerts str_number th row)
   = [wind_alert str_number th row]) /\
  ((wind_speed row <= inject_Z (th_wind_speed th))%Q ->
   filter is_wind_alert (row_alerts str_number th row) = []) /\
  (main row = th_condition th ->
   filter is_condition_alert (row_alerts str_number th row)
   = [condition_alert th row]) /\
  (main row <> th_condition th ->
   filter is_condition_alert (row_alerts str_number th row) = []).
Proof.
  repeat split; intros H.
  - now rewrite humidity_alerts_of_row, (proj2 (exceeds_true _ _) H).
  - now rewrite humidity_alerts_of_row, (exceeds_not_above H).
  - now rewrite wind_alerts_of_row, (proj2 (exceeds_true _ _) H).
  - now rewrite wind_alerts_of_row, (exceeds_not_above H).
  - rewrite condition_alerts_of_row.
    now rewrite (proj2 (String.eqb_eq _ _) H).
  - rewrite condition_alerts_of_row.
    now rewrite (proj2 (String.eqb_neq _ _) H).
Qed.

(** ** The map *)

Lemma city_present_or_missing (c : string) (data : list observation) :
  (exists o, In o data /\ city o = c) \/ (forall o, In o data -> city o <> c).
Proof.
  destruct (filter (fun o => String.eqb (city o) c) data) as [|o l] eqn:E.
  - right. intros o Ho Hc.
    assert (Hin : In o (filter (fun o => String.eqb (city o) c) data))
      by (apply filter_In; split; [exact Ho | now apply String.eqb_eq]).
    rewrite E in Hin. destruct Hin.
  - left. exists o.
    assert (Hin : In o (filter (fun o => String.eqb (city o) c) data))
      by (rewrite E; now left).
    apply filter_In in Hin. destruct Hin as [Hin Hc]. split; [exact Hin|].
    now apply String.eqb_eq.
Qed.

Lemma table_present_or_missing (table : list (string * (Q * Q))) (data : list observation) :
  (exists c, In c (map fst table) /\ forall o, In o data -> city o <> c) \/
  (forall c, In c (map fst table) -> exists o, In o data /\ city o = c).
Proof.
  induction table as [|[c0 coords] table [[c [Hin Hc]] | IH]].
  - right. intros c [].
  - left. exists c. split; [now right | exact Hc].
  - destruct (city_present_or_missing c0 data) as [Hp | Hm].
    + right. intros c [<- | Hc]; [exact Hp | now apply IH].
    + left. exists c0. split; [now left | exact Hm].
Qed.

Lemma iloc_last_city_missing c data :
  (forall o, In o data -> city o <> c) ->
  iloc_last (filter (fun o => String.eqb (city o) c) data) = inl FrameIndexError.
Proof.
  intros H. rewrite filter_none; [reflexivity|].
  intros o Ho. apply String.eqb_neq. now apply H.
Qed.

Lemma iloc_last_city_present c data :
  (exists o, In o data /\ city o = c) ->
  exists row,
    iloc_last (filter (fun o => String.eqb (city o) c) data) = inr row /\
    filter (fun r => String.eqb (city r) c) (groupby_city_last data) = [row].
Proof.
  intros H. destruct (groupby_city_last_row data H) as [pre [row [Hpart Hview]]].
  exists row. split; [|exact Hview].
  unfold iloc_last. now rewrite Hpart, last_row_app.
Qed.

Lemma add_traces_missing table data : forall fig,
  data <> [] ->
  (exists c, In c (map fst table) /\ forall o, In o data -> city o <> c) ->
  add_traces table data fig = inl FrameIndexError.
Proof.
  induction table as [|[c0 [lat lon]] table IH]; intros fig Hne [c [Hin Hc]];
    [destruct Hin|].
  cbn [add_traces]. unfold select_city.
  destruct data as [|o0 data0] eqn:Ed; [now contradiction Hne|]. cbn [empty].
  rewrite <- Ed in *. clear Ed.
  destruct (city_present_or_missing c0 data) as [Hp | Hm].
  - destruct (@iloc_last_city_present c0 data Hp) as [row [Hrow _]]. rewrite Hrow.
    apply IH; [exact Hne|]. destruct Hin as [Heq | Hin].
    + exfalso. simpl in Heq. subst c0. destruct Hp as [o [Ho Hco]]. now apply (Hc o).
    + now exists c.
  - now rewrite (@iloc_last_city_missing c0 data Hm).
Qed.

Lemma add_traces_present table data : forall fig,
  data <> [] ->
  (forall c, In c (map fst table) -> exists o, In o data /\ city o = c) ->
  exists ts,
    add_traces table data fig = inr (fig ++ ts) /\
    Forall2 (trace_of_latest_row data) table ts.
Proof.
  induction table as [|[c0 [lat lon]] table IH]; intros fig Hne Hall.
  - exists []. rewrite app_nil_r. split; [reflexivity | constructor].
  - cbn [add_traces]. unfold select_city.
    destruct data as [|o0 data0] eqn:Ed; [now contradiction Hne|]. cbn [empty].
    rewrite <- Ed in *. clear Ed.
    destruct (@iloc_last_city_present c0 data (Hall c0 (or_introl eq_refl))) as [row [Hrow Hview]].
    rewrite Hrow.
    destruct (IH (fig ++ [city_trace c0 lat lon row]) Hne
                (fun c Hc => Hall c (or_intror Hc))) as [ts [Hts Hrel]].
    exists (city_trace c0 lat lon row :: ts). split.
    + rewrite Hts, <- app_assoc. reflexivity.
    + constructor; [|exact Hrel]. exists row. split; [exact Hview | reflexivity].
Qed.

(** X12: [create_map] raises KeyError on the frame without rows, and on a
    frame with rows it raises IndexError exactly when some city of the table
    has no row in it. *)
Theorem create_map_raises_iff_city_missing :
  create_map [] = inl (FrameKeyError "city") /\
  forall data, data <> [] ->
    ((exists c, In c (map fst CITIES) /\ forall o, In o data -> city o <> c)
     <-> create_map data = inl FrameIndexError).
Proof.
  split; [reflexivity|]. intros data Hne. unfold create_map, create_map_over. split.
  - intros H. now rewrite (add_traces_missing CITIES [] Hne H).
  - intros H. destruct (table_present_or_missing CITIES data) as [Hm | Hp]; [exact Hm|].
    destruct (add_traces_present CITIES [] Hne Hp) as [ts [Hts _]].
    rewrite Hts in H. discriminate H.
Qed.

(** X13: over a frame that has a row for every city of the table,
    [create_map] returns a figure with one marker per city, in table order,
    at the coordinates of the table, whose hover text is made from the row
    that the latest-reading view holds for that city. *)
Theorem create_map_draws_latest_rows (data : list observation) :
  (forall c, In c (map fst CITIES) -> exists o, In o data /\ city o = c) ->
  exists fig,
    create_map data = inr fig /\
    fig_layout fig = map_layout /\
    Forall2 (trace_of_latest_row data) CITIES (traces fig).
Proof.
  intros Hp.
  assert (Hne : data <> []).
  { destruct (Hp "Delhi") as [o [Ho _]]; [now left|]. intros ->. destruct Ho. }
  unfold create_map, create_map_over.
  destruct (add_traces_present CITIES [] Hne Hp) as [ts [Hts Hrel]].
  rewrite Hts. eexists. split; [reflexivity|]. split; [reflexivity | exact Hrel].
Qed.





(** ** The views of the page *)

(** X15: the alert column says "no active alerts" exactly when the log is
    empty; otherwise it shows the tail of the log, in log order: all of it
    when it has at most five messages, else its last five. *)
Theorem weather_alerts_shows_last_five (st : session_state) :
  match weather_alerts st with
  | NoActiveAlerts => alerts st = []
  | Warnings shown =>
      alerts st <> [] /\
      exists hidden,
        alerts st = hidden ++ shown /\
        List.length shown = Nat.min 5 (List.length (alerts st))
  end.
Proof.
  unfold weather_alerts. destruct (alerts st) as [|a log] eqn:E; [reflexivity|].
  cbn [empty]. split; [discriminate|].
  unfold last_five. exists (firstn (List.length (a :: log) - 5) (a :: log)).
  split; [now rewrite firstn_skipn|].
  rewrite length_skipn. lia.
Qed.

Lemma in_date_range_iff d0 d1 o :
  in_date_range d0 d1 o = true <->
  d0 <= date_of (dt o) /\ (date_of (dt o) < d1 \/ dt o = d1 * 86400).
Proof.
  unfold in_date_range, to_datetime, date_of.
  rewrite andb_true_iff, !Z.leb_le.
  pose proof (Z.div_mod (dt o) 86400 ltac:(lia)) as Hdm.
  pose proof (Z.mod_pos_bound (dt o) 86400 ltac:(lia)) as Hr.
  split; intros H; lia.
Qed.

(** X16: the historical table holds, in store order, exactly the
    observations whose calendar day is not before the first selected date
    and is before the second one, together with those taken at the very
    midnight that opens the second date; the rest of the second date is left
    out. *)
Theorem historical_rows_stop_at_midnight
    (d0 d1 : Z) (store rows : list observation) :
  historical_data [d0; d1] store = inr (HistoricalTable rows) ->
  rows <> [] /\
  rows = filter (in_date_range d0 d1) store /\
  forall o, In o rows <->
            In o store /\ d0 <= date_of (dt o) /\
            (date_of (dt o) < d1 \/ dt o = d1 * 86400).
Proof.
  unfold historical_data. destruct store as [|o0 store0] eqn:Es; [discriminate|].
  cbn [empty tuple_get nth_error]. rewrite <- Es.
  destruct (filter (in_date_range d0 d1) store) as [|r rs] eqn:Ef;
    cbn [empty]; intros H; inversion H; subst rows.
  split; [discriminate|]. split; [reflexivity|].
  intros o. rewrite <- Ef, filter_In, in_date_range_iff. reflexivity.
Qed.

(** X17: when every observation of a store with rows was taken on the
    second selected date, after its midnight, the historical tab reports
    that no data is available for the range. *)
Theorem historical_hides_readings_of_end_date
    (d0 d1 : Z) (store : list observation) :
  store <> [] ->
  (forall o, In o store -> date_of (dt o) = d1 /\ dt o <> d1 * 86400) ->
  historical_data [d0; d1] store = inr NoDataInRange.
Proof.
  intros Hne Hall. unfold historical_data.
  destruct store as [|o0 store0] eqn:Es; [now contradiction Hne|].
  cbn [empty tuple_get nth_error]. rewrite <- Es in *.
  rewrite filter_none; [reflexivity|].
  intros o Ho. destruct (in_date_range d0 d1 o) eqn:E; [|reflexivity].
  apply in_date_range_iff in E. destruct (Hall o Ho) as [Hd Hm]. lia.
Qed.

(** X18: the historical tab reads the date range only when the store has
    rows: on the empty store it reports that there is no historical data
    whatever the range is, and on a store with rows a range of fewer than
    two dates raises IndexError. *)
Theorem historical_needs_two_dates (date_range : list Z) (store : list observation) :
  historical_data date_range [] = inr NoHistoricalData /\
  (store <> [] -> (List.length date_range < 2)%nat ->
   historical_data date_range store = inl FrameIndexError).
Proof.
  split; [reflexivity|]. intros Hne Hlen. unfold historical_data.
  destruct store as [|o0 store0]; [now contradiction Hne|]. cbn [empty].
  destruct date_range as [|d0 [|d1 rest]]; [reflexivity | reflexivity | simpl in Hlen; lia].
Qed.

(** ** The button *)



End Pandas.

(* ===================================================================== *)
(** * Counterexamples and instances *)
(* ===================================================================== *)

(** ** Of the claims *)

(** C1 as stated fails: Delhi is merged at a later and then at an earlier
    observed_at; the view keeps the earlier reading. *)
Lemma latest_is_not_greatest_out_of_order :
  reachable store_out_of_order /\ ~ latest_has_greatest_observed_at store_out_of_order.
Proof.
  split; [do 2 apply reachable_merge; apply reachable_init|].
  intros H.
  assert (Hle : dt delhi_late <= dt delhi_early).
  { apply H; [now left | now left | reflexivity]. }
  now vm_compute in Hle.
Qed.


Lemma store_one_day_reachable : reachable store_one_day.
Proof. do 3 apply reachable_merge. apply reachable_init. Qed.

(** C1 at a store merged in time order: the view keeps, for Delhi, a row
    that no Delhi observation exceeds in observed_at. *)
Lemma latest_per_city_is_last_inserted_witness :
  exists o,
    filter (fun r => String.eqb (city r) "Delhi") (groupby_city_last store_one_day) = [o] /\
    forall o', In o' store_one_day -> city o' = "Delhi" -> dt o' <= dt o.
Proof.
  destruct (proj2 (proj2 latest_per_city_is_last_inserted) store_one_day "Delhi"
              (ex_intro _ (sample_reading "Delhi" "Rain" 30%Q 1700000000)
                 (conj (or_introl eq_refl) eq_refl)))
    as [pre [o [Hpart [Hrow Hsorted]]]].
  exists o. split; [exact Hrow|].
  apply Hsorted. rewrite <- Hpart. vm_compute.
  repeat constructor; discriminate.
Defined.

(** C3 at the Mumbai entry of a reachable store. *)
Lemma reachable_key_unique_witness :
  reachable store_one_day /\
  nth_error store_one_day 1 = Some mumbai_reading /\
  (1 = 1)%nat.
Proof.
  split; [exact store_one_day_reachable|]. split; [reflexivity|].
  exact (reachable_key_unique (store := store_one_day) 1 1
           store_one_day_reachable eq_refl eq_refl eq_refl eq_refl).
Defined.

(** C5 at the Delhi partition of day 19675, temperatures 30, 35, 40. *)
Lemma recompute_partition_statistics_witness :
  exists row,
    filter (fun r => Z.eqb (date r) 19675 && String.eqb (summary_city r) "Delhi")
           (daily_summaries (calculate_daily_summary sort_values_stable session_one_day))
    = [row] /\
    (avg_temp row == 35)%Q /\ max_temp row = 40%Q /\ min_temp row = 30%Q.
Proof.
  destruct (@recompute_partition_statistics sort_values_stable
              sort_values_stable_descending session_one_day 19675 "Delhi")
    as [row [Hrow [_ [_ [_ [_ [_ [_ Hex]]]]]]]]; [vm_compute; discriminate|].
  exists row. split; [exact Hrow|]. apply Hex. reflexivity.
Defined.

(** C4 as stated fails: line 110 asks for the counts in descending order
    and says nothing on equal counts.  A sort that puts the later of two
    equally frequent conditions first is a descending sort of the counts as
    well, and under it Rain, Clouds, once each, give Clouds. *)
Lemma first_seen_tie_break_not_fixed :
  descending_by_count sort_values_reversing /\
  map main (filter (fun o => Z.eqb (date_of (dt o)) 19675 && String.eqb (city o) "Delhi")
                   (weather_data session_rain_clouds)) = ["Rain"; "Clouds"] /\
  exists row,
    filter (fun r => Z.eqb (date r) 19675 && String.eqb (summary_city r) "Delhi")
           (daily_summaries (calculate_daily_summary sort_values_reversing
                                                     session_rain_clouds)) = [row] /\
    dominant_weather row = "Clouds" /\
    dominant_weather row <> "Rain".
Proof.
  split; [exact sort_values_reversing_descending|].
  split; [reflexivity|].
  eexists. split; [vm_compute; reflexivity|].
  split; [reflexivity | discriminate].
Qed.

(** C4 at the Delhi partition of day 19675, conditions Rain, Clouds, once
    each, under the sort that keeps equal counts in the order of first
    appearance: Rain, first in the partition, is the dominant one. *)
Lemma dominant_condition_most_frequent_witness :
  exists row,
    filter (fun r => Z.eqb (date r) 19675 && String.eqb (summary_city r) "Delhi")
           (daily_summaries (calculate_daily_summary sort_values_stable
                                                     session_rain_clouds)) = [row] /\
    dominant_weather row = "Rain".
Proof.
  destruct (@dominant_condition_most_frequent sort_values_stable
              sort_values_stable_descending session_rain_clouds 19675 "Delhi")
    as [row [Hrow [_ [_ [_ [_ Hstable]]]]]]; [vm_compute; discriminate|].
  exists row. split; [exact Hrow|].
  apply (Hstable (fun l => eq_refl)). reflexivity.
Defined.

(** C6 at Mumbai, 36 degrees against a threshold of 35. *)
Lemma evaluate_temperature_alert_witness :
  filter is_temp_alert (row_alerts sample_str_number sample_thresholds mumbai_reading)
  = ["🌡️ Alert: Temperature in Mumbai exceeded 35°C. Current temperature: 36.0°C"].
Proof.
  destruct (evaluate_temperature_alert sample_str_number sample_thresholds
              session_one_day mumbai_reading)
    as [before [after [tenths [_ [_ [_ [Hone [_ [_ [_ [_ Hex]]]]]]]]]]].
  - right. left. reflexivity.
  - reflexivity.
  - rewrite Hone, Hex; reflexivity.
Defined.

(** C10 at Mumbai, humidity 60 and wind speed 3 against thresholds 60 and
    3. *)
Lemma boundary_value_raises_no_alert_witness :
  filter is_humidity_alert
         (row_alerts sample_str_number sample_thresholds mumbai_reading) = [] /\
  filter is_wind_alert
         (row_alerts sample_str_number sample_thresholds mumbai_reading) = [].
Proof.
  destruct (boundary_value_raises_no_alert sample_str_number sample_thresholds
              session_one_day mumbai_reading)
    as [before [after [_ [_ [_ [_ [Hhum Hwind]]]]]]].
  - right. left. reflexivity.
  - split; [apply Hhum | apply Hwind]; reflexivity.
Defined.

(** C7 at a session with an empty store and a summary left by an earlier
    run. *)
Lemma recompute_on_empty_store_is_noop_witness :
  calculate_daily_summary sort_values_stable session_stale_summary
  = session_stale_summary.
Proof.
  exact (proj1 (recompute_on_empty_store_is_noop sort_values_stable
                  session_stale_summary eq_refl)).
Defined.




(** ** Of the further properties *)


(** X2 at a provider that answers every city with an empty object. *)
Lemma fetch_weather_data_bare_body_witness :
  fst (fetch_weather_data world_bare_body "Delhi" init_runtime)
  = inr (Some {| city := "Delhi"; main := "Unknown"; description := "Unknown";
                 temp := 0%Q; feels_like := 0%Q; humidity := 0%Q;
                 pressure := 0%Q; wind_speed := 0%Q; dt := 1700019842 |}).
Proof.
  exact (fetch_weather_data_bare_body world_bare_body "Delhi" init_runtime
           (data := bare_payload) eq_refl eq_refl eq_refl eq_refl eq_refl).
Defined.


(** X4 at a reachable store and a batch that repeats Mumbai. *)
Lemma merge_only_appends_witness :
  exists added,
    merge_new_data store_one_day [mumbai_refetched; delhi_late] = store_one_day ++ added /\
    (forall o, In o added ->
       In o [mumbai_refetched; delhi_late] /\
       ~ In (obs_key o) (map obs_key store_one_day)) /\
    NoDup (map obs_key added).
Proof.
  exact (merge_only_appends [mumbai_refetched; delhi_late] store_one_day_reachable).
Defined.

(** X5: Mumbai fetched again at the same instant with other values does
    not get into the store. *)
Lemma stored_entry_is_never_replaced_witness :
  ~ In mumbai_refetched (merge_new_data store_one_day [mumbai_refetched]).
Proof.
  intros H.
  assert (E : mumbai_refetched = mumbai_reading).
  { apply (@stored_entry_is_never_replaced store_one_day [mumbai_refetched]
             mumbai_reading mumbai_refetched store_one_day_reachable);
      [right; now left | exact H | reflexivity | reflexivity]. }
  discriminate E.
Defined.

Lemma store_one_day_has_rows : weather_data session_one_day <> [].
Proof. discriminate. Qed.

(** X6 at the store of one day. *)
Lemma summary_rows_ascending_witness :
  Sorted (fun a b =>
            (date a < date b \/
             (date a = date b /\ String.leb (summary_city a) (summary_city b) = true)) /\
            (date a, summary_city a) <> (date b, summary_city b))
         (daily_summaries (calculate_daily_summary sort_values_stable session_one_day)).
Proof.
  exact (@summary_rows_ascending sort_values_stable sort_values_stable_descending
           session_one_day store_one_day_has_rows).
Defined.

(** X7 at the Delhi row of the store of one day. *)
Lemma summary_row_has_observation_witness :
  exists o, In o store_one_day /\ date_of (dt o) = 19675 /\ city o = "Delhi".
Proof.
  apply (@summary_row_has_observation sort_values_stable
           sort_values_stable_descending session_one_day
           {| date := 19675; summary_city := "Delhi";
              avg_temp := (105 # 3)%Q; max_temp := 40%Q; min_temp := 30%Q;
              avg_humidity := (180 # 3)%Q; avg_wind_speed := (9 # 3)%Q;
              dominant_weather := "Rain" |} store_one_day_has_rows).
  left. reflexivity.
Defined.

(** X11 at Mumbai: humidity 60 against 60, wind 3 against 3, condition
    Clear against Rain. *)
Lemma humidity_wind_condition_alerts_witness :
  filter is_humidity_alert (row_alerts sample_str_number sample_thresholds mumbai_reading) = [] /\
  filter is_wind_alert (row_alerts sample_str_number sample_thresholds mumbai_reading) = [] /\
  filter is_condition_alert (row_alerts sample_str_number sample_thresholds mumbai_reading) = [].
Proof.
  destruct (humidity_wind_condition_alerts sample_str_number sample_thresholds mumbai_reading)
    as [_ [Hh [_ [Hw [_ Hc]]]]].
  split; [apply Hh; discriminate|]. split; [apply Hw; discriminate|].
  apply Hc. discriminate.
Defined.

(** X12 at a store that has only Delhi and Mumbai. *)
Lemma create_map_raises_iff_city_missing_witness :
  create_map store_one_day = inl FrameIndexError.
Proof.
  apply (proj1 (proj2 create_map_raises_iff_city_missing store_one_day ltac:(discriminate))).
  exists "Chennai". split; [right; right; now left|].
  intros o [<- | [<- | [<- | [<- | []]]]]; discriminate.
Defined.

Lemma store_all_cities_complete c :
  In c (map fst CITIES) -> exists o, In o store_all_cities /\ city o = c.
Proof.
  intros Hc. exists (sample_reading c "Clear" 30%Q 1700000000).
  split; [|reflexivity].
  simpl in Hc. destruct Hc as [<- | [<- | [<- | [<- | [<- | [<- | []]]]]]];
    vm_compute; tauto.
Qed.

(** X13 at a store with one reading per city. *)
Lemma create_map_draws_latest_rows_witness :
  exists fig,
    create_map store_all_cities = inr fig /\
    fig_layout fig = map_layout /\
    Forall2 (trace_of_latest_row store_all_cities) CITIES (traces fig).
Proof. exact (create_map_draws_latest_rows store_all_cities store_all_cities_complete). Defined.


(** X16 at the store of one day, range from its day to the next. *)
Lemma historical_rows_stop_at_midnight_witness :
  historical_data [19675; 19676] store_one_day = inr (HistoricalTable store_one_day) /\
  forall o, In o store_one_day <->
            In o store_one_day /\ 19675 <= date_of (dt o) /\
            (date_of (dt o) < 19676 \/ dt o = 19676 * 86400).
Proof.
  split; [reflexivity|].
  exact (proj2 (proj2 (historical_rows_stop_at_midnight 19675 19676 store_one_day
                         (rows := store_one_day) eq_refl))).
Defined.

(** X17 at the store of one day, range ending on that day. *)
Lemma historical_hides_readings_of_end_date_witness :
  historical_data [19668; 19675] store_one_day = inr NoDataInRange.
Proof.
  apply historical_hides_readings_of_end_date; [discriminate|].
  intros o [<- | [<- | [<- | [<- | []]]]]; split; (reflexivity || discriminate).
Defined.

(** X18 at a range with one date only. *)
Lemma historical_needs_two_dates_witness :
  historical_data [19675] store_one_day = inl FrameIndexError.
Proof.
  apply (proj2 (historical_needs_two_dates [19675] store_one_day));
    [discriminate | simpl; lia].
Defined.

